(** * Resume analyzer: the scoring and matching functions of [app.py]

    A shallow embedding of the pure part of the Streamlit script
    (text extraction, preprocessing, skill matching, formatting checks and
    the heuristic scores), and the properties its specification states.

    Python [str] values are sequences of Unicode code points; the
    builtins the script calls ([str.lower], [str.strip], [str.count],
    [str.split], [str.splitlines], [str.isupper], [in], [re.sub]) are
    modelled on that representation.  Python [float] values are IEEE 754
    binary64 numbers, with the arithmetic of the Standard Library's
    [SpecFloat].  The Unicode character tables and the third-party
    libraries (PyMuPDF, fuzzywuzzy, sentence-transformers) are
    parameters. *)

From Stdlib Require Import ZArith NArith List Bool Lia.
From Stdlib Require Import Strings.String Strings.Ascii.
From Stdlib Require Import Floats.SpecFloat.
From Stdlib Require Decimal DecimalNat.
From stdpp Require Import base tactics decidable option numbers list sets.

(** ** Python strings *)

Module PyStr.
#[local] Open Scope N_scope.

(** A character is a Unicode code point, a string a sequence of them. *)
Definition char := N.
Definition str := list char.

(** An ASCII literal of the source as a [str]. *)
Definition lit (s : string) : str :=
  map N_of_ascii (list_ascii_of_string s).

Definition SPACE : char := 32.
Definition UNDERSCORE : char := 95.
Definition BULLET : char := 8226.          (* U+2022, the "•" of the source *)
Definition CAPITAL_SIGMA : char := 931.    (* U+03A3 *)
Definition FINAL_SIGMA : char := 962.      (* U+03C2 *)
Definition SMALL_SIGMA : char := 963.      (* U+03C3 *)

(** [Py_UNICODE_ISSPACE]: the characters [str.isspace], [str.strip],
    [str.split] and the regular expression class [\s] treat as
    whitespace. *)
Definition is_space (c : char) : bool :=
  ((9 <=? c) && (c <=? 13)) || ((28 <=? c) && (c <=? 32))
  || (c =? 133) || (c =? 160) || (c =? 5760)
  || ((8192 <=? c) && (c <=? 8202))
  || (c =? 8232) || (c =? 8233) || (c =? 8239) || (c =? 8287)
  || (c =? 12288).

(** [Py_UNICODE_ISLINEBREAK]: the line boundaries of [str.splitlines]. *)
Definition is_linebreak (c : char) : bool :=
  ((10 <=? c) && (c <=? 13)) || ((28 <=? c) && (c <=? 30))
  || (c =? 133) || (c =? 8232) || (c =? 8233).

(** The tables of the Unicode character database the builtins consult. *)
Record ucd := {
  lower_full : char -> list char;   (* full lowercase mapping *)
  is_alnum : char -> bool;          (* [str.isalnum] on one character *)
  is_cased : char -> bool;
  is_case_ignorable : char -> bool;
  is_upper : char -> bool;          (* [Py_UNICODE_ISUPPER] *)
  is_lower : char -> bool;          (* [Py_UNICODE_ISLOWER] *)
  is_title : char -> bool           (* [Py_UNICODE_ISTITLE] *)
}.

(** The ASCII fragment of the tables: every character above U+007F is
    caseless and not alphanumeric. *)
Definition ascii_upper (c : char) : bool := (65 <=? c) && (c <=? 90).
Definition ascii_lower (c : char) : bool := (97 <=? c) && (c <=? 122).
Definition ascii_digit (c : char) : bool := (48 <=? c) && (c <=? 57).

Definition ascii_ucd : ucd := {|
  lower_full c := if ascii_upper c then [c + 32] else [c];
  is_alnum c := ascii_upper c || ascii_lower c || ascii_digit c;
  is_cased c := ascii_upper c || ascii_lower c;
  is_case_ignorable c := (c =? 39) || (c =? 46) || (c =? 58) || (c =? 94) || (c =? 96);
  is_upper := ascii_upper;
  is_lower := ascii_lower;
  is_title _ := false
|}.

Section Builtins.
Variable U : ucd.

(** The class [\w] of [re] on [str] patterns; [\W] is its complement. *)
Definition is_word (c : char) : bool := is_alnum U c || (c =? UNDERSCORE).
Definition is_nonword (c : char) : bool := negb (is_word c).

(** *** [str.lower] *)

Fixpoint skip_case_ignorable (s : str) : str :=
  match s with
  | c :: s' => if is_case_ignorable U c then skip_case_ignorable s' else s
  | [] => []
  end.

(** [handle_capital_sigma]: U+03A3 lowers to the final sigma when a cased
    character precedes it and none follows it, case-ignorable characters
    skipped on both sides.  [before] is the text before the sigma,
    nearest character first. *)
Definition handle_capital_sigma (before after : str) : char :=
  let final_sigma :=
    match skip_case_ignorable before with
    | c :: _ => is_cased U c
    | [] => false
    end in
  let final_sigma :=
    final_sigma &&
    match skip_case_ignorable after with
    | c :: _ => negb (is_cased U c)
    | [] => true
    end in
  if final_sigma then FINAL_SIGMA else SMALL_SIGMA.

Definition lower_ucs4 (before : str) (c : char) (after : str) : list char :=
  if c =? CAPITAL_SIGMA then [handle_capital_sigma before after]
  else lower_full U c.

Fixpoint do_lower (before s : str) : str :=
  match s with
  | [] => []
  | c :: s' => lower_ucs4 before c s' ++ do_lower (c :: before) s'
  end.

Definition lower (s : str) : str := do_lower [] s.

(** *** [str.strip] *)

Fixpoint lstrip (s : str) : str :=
  match s with
  | c :: s' => if is_space c then lstrip s' else s
  | [] => []
  end.

Fixpoint rstrip (s : str) : str :=
  match s with
  | [] => []
  | c :: s' =>
      match rstrip s' with
      | [] => if is_space c then [] else [c]
      | r => c :: r
      end
  end.

Definition strip (s : str) : str := rstrip (lstrip s).

(** *** [re.sub(r'P+', ' ', s)] for a character class [P]: every maximal
    run of characters of the class becomes one space.  [in_run] tells
    that the previous character belonged to the class. *)
Fixpoint sub_runs_from (p : char -> bool) (in_run : bool) (s : str) : str :=
  match s with
  | [] => []
  | c :: s' =>
      if p c then
        (if in_run then [] else [SPACE]) ++ sub_runs_from p true s'
      else c :: sub_runs_from p false s'
  end.

Definition sub_runs (p : char -> bool) (s : str) : str :=
  sub_runs_from p false s.

(** *** [str.count], [in] *)

Fixpoint starts_with (sub s : str) : bool :=
  match sub, s with
  | [], _ => true
  | _ :: _, [] => false
  | a :: sub', b :: s' => (a =? b) && starts_with sub' s'
  end.

(** Occurrences are counted from the left and do not overlap: after a
    match the scan resumes behind it ([skip] characters are passed
    over). *)
Fixpoint count_from (sub : str) (skip : nat) (s : str) : nat :=
  match s with
  | [] => 0
  | _ :: s' =>
      match skip with
      | S k => count_from sub k s'
      | O =>
          if starts_with sub s
          then S (count_from sub (pred (length sub)) s')
          else count_from sub 0 s'
      end
  end.

Definition count (s sub : str) : nat :=
  match sub with
  | [] => S (length s)
  | _ => count_from sub 0 s
  end.

Fixpoint contains (sub s : str) : bool :=
  starts_with sub s ||
  match s with
  | [] => false
  | _ :: s' => contains sub s'
  end.

(** *** [str.split] without arguments, [str.splitlines] *)

Definition flush (cur : str) : list str :=
  match cur with
  | [] => []
  | _ => [rev cur]
  end.

(** [cur] is the word being read, last character first. *)
Fixpoint split_from (cur : str) (s : str) : list str :=
  match s with
  | [] => flush cur
  | c :: s' =>
      if is_space c then flush cur ++ split_from [] s'
      else split_from (c :: cur) s'
  end.

Definition split (s : str) : list str := split_from [] s.

(** A line ends at a line break, CR LF counting as one; the text after
    the last break is a line only when it is not empty. *)
Fixpoint splitlines_from (cur : str) (s : str) : list str :=
  match s with
  | [] => flush cur
  | c :: s' =>
      if is_linebreak c then
        rev cur ::
        match s' with
        | d :: s'' =>
            if (c =? 13) && (d =? 10) then splitlines_from [] s''
            else splitlines_from [] s'
        | [] => splitlines_from [] s'
        end
      else splitlines_from (c :: cur) s'
  end.

Definition splitlines (s : str) : list str := splitlines_from [] s.

(** *** [str.isupper] *)
Definition isupper (s : str) : bool :=
  match s with
  | [] => false
  | [c] => is_upper U c
  | _ =>
      forallb (fun c => negb (is_lower U c || is_title U c)) s
      && existsb (is_upper U) s
  end.

End Builtins.

End PyStr.

(** ** Python outcomes and numbers *)

Module Py.
Import PyStr.
#[local] Open Scope N_scope.

(** The exceptions the modelled code can meet: a class and the message
    [str(e)] gives.  All the classes derive from [Exception], so an
    [except Exception] clause catches each one. *)
Inductive exn_class :=
| ZeroDivisionError
| OverflowError
| ValueError
| LibraryError.   (* raised inside a third-party call *)

Record exn := exception { exn_class_of : exn_class; exn_message : str }.

(** A call either returns a value or raises. *)
Inductive outcome (A : Type) :=
| Returns (a : A)
| Raises (e : exn).
Arguments Returns {A} a.
Arguments Raises {A} e.

#[export] Instance outcome_ret : MRet outcome := fun A a => Returns a.
#[export] Instance outcome_bind : MBind outcome := fun A B f m =>
  match m with
  | Returns a => f a
  | Raises e => Raises e
  end.
#[export] Instance outcome_fmap : FMap outcome := fun A B f m =>
  match m with
  | Returns a => Returns (f a)
  | Raises e => Raises e
  end.

(** A [for] loop whose body may raise, threading the loop variable. *)
Fixpoint for_each {A S : Type} (body : S -> A -> outcome S)
    (l : list A) (s : S) : outcome S :=
  match l with
  | [] => Returns s
  | a :: l' => s' ← body s a; for_each body l' s'
  end.

(** Python's [float] is IEEE 754 binary64. *)
Definition prec : Z := 53.
Definition emax : Z := 1024.
Definition float := spec_float.

(** A numeric value is an [int] or a [float]. *)
Inductive number :=
| Int (z : Z)
| Float (x : float).

(** A conversion or division whose result overflowed raises instead of
    yielding infinity. *)
Definition checked (message : str) (x : float) : outcome float :=
  match x with
  | S754_infinity _ => Raises (exception OverflowError message)
  | _ => Returns x
  end.

(** [float(z)]: the nearest float, [OverflowError] beyond the range. *)
Definition float_of_int (z : Z) : outcome float :=
  checked (lit "int too large to convert to float")
          (binary_normalize prec emax z 0 false).

Definition to_float (a : number) : outcome float :=
  match a with
  | Int z => float_of_int z
  | Float x => Returns x
  end.

(** An integer as an (unrounded) binary number: sign, magnitude,
    exponent 0. *)
Definition int_as_binary (z : Z) : float :=
  S754_finite (z <? 0)%Z (Z.to_pos (Z.abs z)) 0.

(** [a / b] on integers: the correctly rounded quotient of the two exact
    integers. *)
Definition int_true_div (a b : Z) : outcome float :=
  match b with
  | Z0 => Raises (exception ZeroDivisionError (lit "division by zero"))
  | _ =>
      match a with
      | Z0 => Returns (S754_zero (b <? 0)%Z)
      | _ => checked (lit "integer division result too large for a float")
                     (SFdiv prec emax (int_as_binary a) (int_as_binary b))
      end
  end.

(** [a * b]: exact on two integers, a float product otherwise. *)
Definition mul (a b : number) : outcome number :=
  match a, b with
  | Int x, Int y => Returns (Int (x * y))
  | _, _ =>
      x ← to_float a; y ← to_float b;
      Returns (Float (SFmul prec emax x y))
  end.

(** The integer nearest to [m * 2^e], ties going to the even one. *)
Definition round_half_even (m : positive) (e : Z) : Z :=
  match e with
  | Zneg p =>
      let d := (2 ^ Zpos p)%Z in
      let q := (Zpos m / d)%Z in
      let r := (Zpos m mod d)%Z in
      match (2 * r ?= d)%Z with
      | Lt => q
      | Gt => (q + 1)%Z
      | Eq => if Z.even q then q else (q + 1)%Z
      end
  | _ => (Zpos m * 2 ^ e)%Z
  end.

(** [round(x)] with one argument. *)
Definition round (a : number) : outcome Z :=
  match a with
  | Int z => Returns z
  | Float (S754_zero _) => Returns 0%Z
  | Float (S754_finite s m e) => Returns (cond_Zopp s (round_half_even m e))
  | Float (S754_infinity _) =>
      Raises (exception OverflowError
                        (lit "cannot convert float infinity to integer"))
  | Float S754_nan =>
      Raises (exception ValueError (lit "cannot convert float NaN to integer"))
  end.

(** [sum] of a sequence of integers. *)
Definition sum (l : list Z) : Z := fold_left Z.add l 0%Z.

(** [str(n)] for a length. *)
Fixpoint digits_of_uint (d : Decimal.uint) : str :=
  match d with
  | Decimal.Nil => []
  | Decimal.D0 d => 48 :: digits_of_uint d
  | Decimal.D1 d => 49 :: digits_of_uint d
  | Decimal.D2 d => 50 :: digits_of_uint d
  | Decimal.D3 d => 51 :: digits_of_uint d
  | Decimal.D4 d => 52 :: digits_of_uint d
  | Decimal.D5 d => 53 :: digits_of_uint d
  | Decimal.D6 d => 54 :: digits_of_uint d
  | Decimal.D7 d => 55 :: digits_of_uint d
  | Decimal.D8 d => 56 :: digits_of_uint d
  | Decimal.D9 d => 57 :: digits_of_uint d
  end.

Definition str_of_nat (n : nat) : str := digits_of_uint (Nat.to_uint n).

End Py.

Import PyStr Py.

(** ** The functions of [app.py] *)

Module App.

(** What the script shows through [st.error]. *)
Inductive ui_event :=
| st_error (message : str).

(** PyMuPDF as the script uses it: an uploaded file is read as bytes,
    [fitz.open] turns them into a document, a document is iterated page by
    page, and each of these steps may raise. *)
Record pdf_library := {
  uploaded : Type;
  doc : Type;
  page : Type;
  read : uploaded -> outcome (list Byte.byte);
  fitz_open : list Byte.byte -> outcome doc;
  pages : doc -> list page;
  get_text : page -> outcome str;
  close : doc -> outcome unit
}.

(** sentence-transformers: the model's [encode] and [util.cos_sim]. *)
Record embedder := {
  tensor : Type;
  encode : str -> tensor;
  cos_sim : tensor -> tensor -> float
}.

Section Collaborators.
(** The Unicode tables behind the string builtins. *)
Variable U : ucd.
Variable fitz : pdf_library.
(** fuzzywuzzy: [fuzz.partial_ratio], an integer similarity. *)
Variable partial_ratio : str -> str -> Z.
Variable model : embedder.

(** *** PDF text extraction *)

(** The body of the [try] block. *)
Definition read_pdf_text (uploaded_file : uploaded fitz) : outcome str :=
  pdf_file ← read fitz uploaded_file;
  d ← fitz_open fitz pdf_file;
  text ← for_each (fun text pg => t ← get_text fitz pg; mret (text ++ t))
                  (pages fitz d) [];
  _ ← close fitz d;
  mret (strip (sub_runs is_space text)).

(** The whole function: the [except Exception] clause reports the error
    and returns the empty string.  The result is what the call returns
    or raises, with the messages it displayed. *)
Definition extract_text_from_pdf (uploaded_file : uploaded fitz)
    : outcome str * list ui_event :=
  match read_pdf_text uploaded_file with
  | Returns text => (Returns text, [])
  | Raises e =>
      (Returns [], [st_error (lit "Error reading PDF: " ++ exn_message e)])
  end.

(** *** Text preprocessing *)

Definition preprocess_text (text : str) : str :=
  let text := lower U text in
  let text := sub_runs (is_nonword U) text in
  strip text.

(** *** Skills matching *)

(** One iteration of the loop over [skills_list]. *)
Definition classify_skill (resume_text job_desc : str) (threshold : Z)
    (acc : list str * list str) (skill : str) : list str * list str :=
  let '(matched, missing) := acc in
  let score_resume := partial_ratio (lower U skill) resume_text in
  let score_jd := partial_ratio (lower U skill) job_desc in
  if (score_resume >=? threshold)%Z then (matched ++ [skill], missing)
  else if (score_jd >=? threshold)%Z && (score_resume <? threshold)%Z
       then (matched, missing ++ [skill])
       else (matched, missing).

Definition extract_skills (resume_text job_desc : str)
    (skills_list : list str) (threshold : Z) : list str * list str :=
  let resume_text := lower U resume_text in
  let job_desc := lower U job_desc in
  fold_left (classify_skill resume_text job_desc threshold)
            skills_list ([], []).

Definition default_threshold : Z := 70.

(** *** Formatting checks *)

Definition DASH_SPACE : str := lit "- ".

Definition msg_bullets : str :=
  lit "Use more bullet points for better readability.".
Definition msg_all_caps : str :=
  lit "Avoid using ALL CAPS excessively.".
Definition msg_long_lines (n : nat) : str :=
  str_of_nat n ++ lit " lines are too long. Try breaking them up.".

Definition check_formatting (text : str) : list str :=
  let issues := [] in
  let issues :=
    if (count text [BULLET] <? 3)%nat && (count text DASH_SPACE <? 3)%nat
    then issues ++ [msg_bullets] else issues in
  let issues :=
    if existsb (fun line => isupper U line && (10 <? length line)%nat)
               (splitlines text)
    then issues ++ [msg_all_caps] else issues in
  let long_lines :=
    List.filter (fun line => (160 <? length line)%nat) (splitlines text) in
  let issues :=
    match long_lines with
    | [] => issues
    | _ => issues ++ [msg_long_lines (length long_lines)]
    end in
  issues.

(** *** Score helpers *)

Definition calculate_style_score (text : str) : Z :=
  let bullets := (count text [BULLET] + count text DASH_SPACE)%nat in
  if (10 <=? bullets)%nat then 100
  else if (5 <=? bullets)%nat then 75
  else if (3 <=? bullets)%nat then 50
  else 25.

Definition ats_keywords (job_desc : str) : list str :=
  List.filter (fun word => (4 <? length word)%nat) (split (lower U job_desc)).

Definition ats_matches (text : str) (keywords : list str) : Z :=
  sum (map (fun _ => 1%Z)
           (List.filter (fun k => contains k (lower U text)) keywords)).

Definition calculate_ats_score (text job_desc : str) : outcome Z :=
  let keywords := ats_keywords job_desc in
  let matches := ats_matches text keywords in
  density ←
    match keywords with
    | [] => mret (Int 0)
    | _ => Float <$> int_true_div matches (Z.of_nat (length keywords))
    end;
  scaled ← mul density (Int 100);
  rounded ← round scaled;
  mret (Z.min 100 rounded).

Definition sections : list str :=
  [lit "education"; lit "experience"; lit "skills"; lit "projects";
   lit "summary"; lit "certifications"].

Definition calculate_section_score (text : str) : outcome Z :=
  let count :=
    sum (map (fun _ => 1%Z)
             (List.filter (fun sec => contains sec (lower U text)) sections)) in
  ratio ← int_true_div count (Z.of_nat (length sections));
  scaled ← mul (Float ratio) (Int 100);
  round scaled.

(** *** Resume to job description comparison *)

(** The result with the texts handed to the embedding model, in call
    order. *)
Definition compare_resume_with_job (resume_text job_desc : str)
    (skills_list : list str)
    : (option float * list str * list str) * list str :=
  let resume_clean := preprocess_text resume_text in
  let jd_clean := preprocess_text job_desc in
  match resume_clean, jd_clean with
  | [], _ | _, [] => ((None, [], []), [])
  | _, _ =>
      let resume_input := lit "passage: " ++ resume_clean in
      let jd_input := lit "query: " ++ jd_clean in
      let resume_embedding := encode model resume_input in
      let jd_embedding := encode model jd_input in
      let similarity := cos_sim model resume_embedding jd_embedding in
      let '(matched, missing) :=
        extract_skills resume_text job_desc skills_list default_threshold in
      ((Some similarity, matched, missing), [resume_input; jd_input])
  end.

End Collaborators.

End App.

Import App.

(** ** The vocabulary of the specification *)

Module Spec.

Section SkillMatcher.
Variable U : ucd.
Variable partial_ratio : str -> str -> Z.
Variables resume_text job_desc : str.
Variable threshold : Z.

(** The two similarities the matcher compares with the threshold. *)
Definition resume_similarity (skill : str) : Z :=
  partial_ratio (lower U skill) (lower U resume_text).
Definition job_similarity (skill : str) : Z :=
  partial_ratio (lower U skill) (lower U job_desc).

Definition is_matched (skill : str) : Prop :=
  (threshold <= resume_similarity skill)%Z.
Definition is_missing (skill : str) : Prop :=
  (threshold <= job_similarity skill)%Z
  ∧ (resume_similarity skill < threshold)%Z.

#[export] Instance is_matched_dec skill : Decision (is_matched skill).
Proof. unfold is_matched. apply _. Defined.
#[export] Instance is_missing_dec skill : Decision (is_missing skill).
Proof. unfold is_missing. apply _. Defined.
End SkillMatcher.

(** The bullet-style markers of a text: the occurrences of the bullet
    character plus those of a dash followed by a space. *)
Definition bullet_markers (text : str) : nat :=
  count text [BULLET] + count text DASH_SPACE.

(** The lines longer than 160 characters. *)
Definition long_lines (text : str) : list str :=
  List.filter (fun line => (160 <? length line)%nat) (splitlines text).

(** Some line is upper case ([str.isupper]) and longer than 10 characters. *)
Definition has_all_caps_line (U : ucd) (text : str) : Prop :=
  ∃ line, line ∈ splitlines text ∧ isupper U line = true ∧ 10 < length line.

(** A text with two bullets and two dashes. *)
Definition two_and_two : str := [BULLET; BULLET] ++ lit "- - ".

(** What the proofs about [preprocess_text] use of the Unicode tables: the
    characters a lowercase mapping produces are themselves left alone by
    lowercasing when they are word characters, so are the two small sigmas
    and the space, and no word character is whitespace. *)
Record ucd_laws (U : ucd) : Prop := {
  lower_full_stable : ∀ c d,
    d ∈ lower_full U c → is_word U d = true →
    lower_full U d = [d] ∧ d ≠ CAPITAL_SIGMA;
  small_sigma_stable : lower_full U SMALL_SIGMA = [SMALL_SIGMA];
  final_sigma_stable : lower_full U FINAL_SIGMA = [FINAL_SIGMA];
  space_stable : lower_full U SPACE = [SPACE];
  word_not_space : ∀ c, is_word U c = true → is_space c = false
}.

(** A lowered word character: a character of the class [\w] that is its
    own lowercase, that is, one the tables map to itself and that is not the
    capital sigma, which [str.lower] handles apart. *)
Definition lowered_word (U : ucd) (c : char) : Prop :=
  is_word U c = true ∧ c ≠ CAPITAL_SIGMA ∧ lower_full U c = [c].

(** A lowercase word character, in the words of the specification: a
    character of the class [\w] that is not an upper-case one. *)
Definition lowercase_word (U : ucd) (c : char) : Prop :=
  is_word U c = true ∧ is_upper U c = false.

(** No two neighbours of the string are both spaces. *)
Fixpoint spaced (s : str) : Prop :=
  match s with
  | a :: (b :: _) as t => ¬ (a = SPACE ∧ b = SPACE) ∧ spaced t
  | _ => True
  end.

(** [round(m / n * 100)] as Python evaluates it: a float division, a float
    product and a rounding to the nearest integer, ties to even. *)
Definition percent (m n : Z) : outcome Z :=
  density ← int_true_div m n;
  scaled ← mul (Float density) (Int 100);
  round scaled.

(** [calculate_ats_score] without the [min(100, ...)] clamp. *)
Definition calculate_ats_score_unclamped (U : ucd) (text job_desc : str)
    : outcome Z :=
  let keywords := ats_keywords U job_desc in
  let matches := ats_matches U text keywords in
  density ←
    match keywords with
    | [] => mret (Int 0)
    | _ => Float <$> int_true_div matches (Z.of_nat (length keywords))
    end;
  scaled ← mul density (Int 100);
  round scaled.

(** The issue list of [check_formatting] is made of three optional
    entries. *)
Definition issue_parts (bullets caps : bool) (long : list str) : list str :=
  (if bullets then [msg_bullets] else [])
  ++ (if caps then [msg_all_caps] else [])
  ++ (match long with
      | [] => []
      | _ => [msg_long_lines (length long)]
      end).

(** The shape of a preprocessed text. *)
Definition clean (U : ucd) (s : str) : Prop :=
  Forall (fun c => c = SPACE ∨ lowered_word U c) s
  ∧ spaced s
  ∧ (∀ c, head s = Some c → is_space c = false)
  ∧ (∀ c, last s = Some c → is_space c = false).

(** A shifted mantissa with its round and sticky bits stands for a number of
    [[m, m+1)], equal to [m] when both bits are clear.  It is below the
    integer [K] when that number is at most [K]. *)
Definition below (K : Z) (mrs : shr_record) : Prop :=
  (0 <= shr_m mrs <= K)%Z ∧ (shr_r mrs || shr_s mrs = true → (shr_m mrs < K)%Z).

(** A float that is not negative and at most [k]. *)
Definition at_most (k : Z) (x : float) : Prop :=
  match x with
  | S754_zero false => True
  | S754_finite false m e => (e <= 0)%Z ∧ (Zpos m <= k * 2 ^ (0 - e))%Z
  | _ => False
  end.

(** A small PDF library for examples: an empty stream cannot be opened,
    any other stream opens as a document of one page without text. *)
Definition toy_fitz : pdf_library := {|
  uploaded := list Byte.byte;
  doc := list str;
  page := str;
  read f := Returns f;
  fitz_open bytes :=
    match bytes with
    | [] => Raises (exception LibraryError (lit "cannot open empty document"))
    | _ => Returns [[]]
    end;
  pages d := d;
  get_text pg := Returns pg;
  close _ := Returns tt
|}.

Definition broken_upload : list Byte.byte := [].
Definition blank_upload : list Byte.byte := [Byte.x25].

(** An embedding model and a similarity for examples. *)
Definition null_model : embedder := {|
  tensor := unit;
  encode _ := tt;
  cos_sim _ _ := S754_zero false
|}.
Definition no_ratio (_ _ : str) : Z := 0.

End Spec.

Import Spec.

(** ** Sample collaborators *)

Module Samples.

(** A PDF library whose only document has two pages of text. *)
Definition two_page_fitz : pdf_library := {|
  uploaded := unit;
  doc := unit;
  page := str;
  read _ := Returns [];
  fitz_open _ := Returns tt;
  pages _ := [lit " Jane  Doe" ++ [10%N]; lit "Python "];
  get_text pg := Returns pg;
  close _ := Returns tt
|}.

(** The ASCII tables with one letterlike symbol more: U+2102, the
    double-struck capital C, an upper-case letter (category Lu) that has no
    lowercase mapping. *)
Definition DOUBLE_STRUCK_C : char := 8450%N.

Definition letterlike_ucd : ucd := {|
  lower_full := lower_full ascii_ucd;
  is_alnum c := is_alnum ascii_ucd c || (c =? DOUBLE_STRUCK_C)%N;
  is_cased c := is_cased ascii_ucd c || (c =? DOUBLE_STRUCK_C)%N;
  is_case_ignorable := is_case_ignorable ascii_ucd;
  is_upper c := is_upper ascii_ucd c || (c =? DOUBLE_STRUCK_C)%N;
  is_lower := is_lower ascii_ucd;
  is_title := is_title ascii_ucd
|}.

End Samples.

Import Samples.

(** ** The script around the functions *)

Module Script.
#[local] Open Scope N_scope.

(** [s.split(sep)] with a separator: the pieces between the occurrences of
    [sep], read from the left without overlap; always at least one piece.
    [cur] is the piece being read, last character first. *)
Fixpoint split_on_from (sep : str) (skip : nat) (cur s : str) : list str :=
  match s with
  | [] => [rev cur]
  | c :: s' =>
      match skip with
      | S k => split_on_from sep k cur s'
      | O =>
          if starts_with sep s
          then rev cur :: split_on_from sep (pred (length sep)) [] s'
          else split_on_from sep 0 (c :: cur) s'
      end
  end.

Definition split_on (s sep : str) : outcome (list str) :=
  match sep with
  | [] => Raises (exception ValueError (lit "empty separator"))
  | _ => Returns (split_on_from sep 0 [] s)
  end.

(** [sep.join(l)] *)
Fixpoint join (sep : str) (l : list str) : str :=
  match l with
  | [] => []
  | [x] => x
  | x :: l' => x ++ sep ++ join sep l'
  end.

(** language_tool_python: what [tool.check] reports. *)
Record grammar_match := { message : str; ruleId : str }.

(** The output calls of the script (lines 168 to 250), in call order: one
    entry per call of [st.title], [st.write], [st.markdown], [st.info],
    [st.warning], [st.success] and [st.error], and one per call of the two
    rendering helpers [animated_gauge] and [custom_animated_bar], whose
    bodies (a Plotly chart; three blocks of HTML) are not entered.  The
    input elements (the sidebar text field and checkbox, the file uploader,
    the text area and the unlock button) are not output calls: what the user
    left in them is the record [inputs] below. *)
Inductive widget :=
| st_title (text : str)
| st_write (text : str)
| st_markdown (text : str)
| st_info (text : str)
| st_warning (text : str)
| st_success (text : str)
| st_failure (text : str)          (* [st.error] *)
| animated_gauge (label : str) (value : Z) (color : str)
| custom_animated_bar (label : str) (value : Z) (color_from color_to : str).

Definition shown (e : ui_event) : widget :=
  match e with
  | st_error m => st_failure m
  end.

(** A run of the script: the output calls made so far, and how it went
    on. *)
Definition script (A : Type) : Type := list widget * outcome A.

#[export] Instance script_ret : MRet script := fun A a => ([], Returns a).
#[export] Instance script_bind : MBind script := fun A B f m =>
  match m with
  | (ws, Returns a) => let '(ws', r) := f a in (ws ++ ws', r)
  | (ws, Raises e) => (ws, Raises e)
  end.

Definition show (ws : list widget) : script unit := (ws, Returns tt).
Definition run {A} (o : outcome A) : script A := ([], o).

(** The widgets of the page and the sidebar, as the user left them. *)
Record inputs (fitz : pdf_library) := {
  user_skill_input : str;
  enable_feedback : bool;
  uploaded_file : option (uploaded fitz);
  job_desc : str;
  unlock_pressed : bool
}.
Arguments user_skill_input {fitz} _.
Arguments enable_feedback {fitz} _.
Arguments uploaded_file {fitz} _.
Arguments job_desc {fitz} _.
Arguments unlock_pressed {fitz} _.

Definition label_skill : str := [127919] ++ lit " Skill Match".
Definition label_content : str := [129504] ++ lit " Content".
Definition label_style : str := [127912] ++ lit " Style".
Definition label_ats : str := [9881; 65039] ++ lit " ATS Compatibility".
Definition label_sections : str := [128196] ++ lit " Sections".

Definition gradients : list (str * str) :=
  [(lit "#f2709c", lit "#ff9472");
   (lit "#00c6ff", lit "#0072ff");
   (lit "#f7971e", lit "#ffd200");
   (lit "#56ab2f", lit "#a8e063");
   (lit "#e96443", lit "#904e95")].

Definition recommendations : str :=
  [10] ++ lit "                        - Tailor your resume to reflect the job description better."
  ++ [10] ++ lit "                        - Add missing technical or domain-specific skills."
  ++ [10] ++ lit "                        - Use more bullet points and clean formatting."
  ++ [10] ++ lit "                        - Ensure all key resume sections are present."
  ++ [10] ++ lit "                        ".

Section Rendering.
Variable U : ucd.
Variable fitz : pdf_library.
Variable partial_ratio : str -> str -> Z.
Variable model : embedder.
Variable tool_check : str -> list grammar_match.

Definition check_grammar (text : str) : list str :=
  let matches := tool_check text in
  map (fun m => message m ++ lit " (Rule: " ++ ruleId m ++ lit ")") matches.

(** The skills typed in the sidebar, comma-separated. *)
Definition skills_list (user_skill_input : str) : outcome (list str) :=
  pieces ← split_on user_skill_input (lit ",");
  mret (map (fun s => lower U (strip s))
            (List.filter (fun s => match strip s with [] => false | _ => true end)
                         pieces)).

(** [round(len(matched_skills) / len(skills_list) * 100) if skills_list
    else 0] *)
Definition skill_score (matched_skills skills : list str) : outcome Z :=
  match skills with
  | [] => mret 0%Z
  | _ =>
      ratio ← int_true_div (Z.of_nat (length matched_skills))
                           (Z.of_nat (length skills));
      scaled ← mul (Float ratio) (Int 100);
      round scaled
  end.

(** [x or 'None'] on a string. *)
Definition or_none (x : str) : str :=
  match x with
  | [] => lit "None"
  | _ => x
  end.

(** What pressing the unlock button adds to the page. *)
Definition full_report (enable_feedback : bool) (resume_text : str)
    (matched_skills missing_skills : list str) : script unit :=
  show [st_write (lit "### " ++ [128221] ++ lit " Detailed Report")];;
  show [st_markdown (lit "**" ++ [9989] ++ lit " Matched Skills:** "
                     ++ or_none (join (lit ", ") matched_skills))];;
  show [st_markdown (lit "**" ++ [10060] ++ lit " Missing Skills:** "
                     ++ or_none (join (lit ", ") missing_skills))];;
  (if enable_feedback then
     let grammar_issues := check_grammar resume_text in
     let formatting_issues := check_formatting U resume_text in
     (match grammar_issues with
      | [] => show [st_success ([9989] ++ lit " No major grammar issues found!")]
      | _ =>
          show [st_write (lit "### " ++ [128736; 65039]
                          ++ lit " Grammar Issues Found:")];;
          show (map (fun issue => st_markdown (lit "- " ++ issue))
                    (take 10 grammar_issues))
      end);;
     (match formatting_issues with
      | [] => show [st_success ([9989] ++ lit " Formatting looks clean!")]
      | _ =>
          show [st_write (lit "### " ++ [129534]
                          ++ lit " Formatting Suggestions:")];;
          show (map (fun issue => st_markdown (lit "- " ++ issue))
                    formatting_issues)
      end)
   else mret tt);;
  show [st_write (lit "### Recommendations:")];;
  show [st_markdown recommendations].

(** The analysis once a file, a job description and skills are there. *)
Definition analyze (inp : inputs fitz) (file : uploaded fitz)
    (skills : list str) : script unit :=
  let '(returned, messages) := extract_text_from_pdf fitz file in
  show (map shown messages);;
  resume_text ← run returned;
  match resume_text with
  | [] => show [st_failure (lit "Failed to extract text from PDF.")]
  | _ =>
      let '((score, matched_skills, missing_skills), _) :=
        compare_resume_with_job U partial_ratio model
          resume_text (job_desc inp) skills in
      match score with
      | Some score =>
          overall_score ←
            run (scaled ← mul (Float score) (Int 100); round scaled);
          let style_score := calculate_style_score resume_text in
          ats_score ← run (calculate_ats_score U resume_text (job_desc inp));
          section_score ← run (calculate_section_score U resume_text);
          skill_score ← run (skill_score matched_skills skills);
          let scores :=
            [(label_skill, skill_score);
             (label_content, overall_score);
             (label_style, style_score);
             (label_ats, ats_score);
             (label_sections, section_score)] in
          show [animated_gauge ([129518] ++ lit " Overall Resume Score")
                               overall_score (lit "#4CAF50")];;
          show (map (fun '((label, value), (color_from, color_to)) =>
                       custom_animated_bar label value color_from color_to)
                    (combine scores gradients));;
          if unlock_pressed inp
          then full_report (enable_feedback inp) resume_text
                           matched_skills missing_skills
          else mret tt
      | None => show [st_failure (lit "Could not compute similarity score.")]
      end
  end.

(** The script from its title on. *)
Definition render_page (inp : inputs fitz) : script unit :=
  show [st_title ([128196] ++ lit " Resume to Job Description Matcher")];;
  show [st_write (lit "Upload your resume (PDF) and paste a job description to analyze how well they match.")];;
  skills ← run (skills_list (user_skill_input inp));
  match uploaded_file inp, job_desc inp with
  | Some file, _ :: _ =>
      match skills with
      | [] => show [st_warning (lit "Please enter at least one skill in the sidebar.")]
      | _ => analyze inp file skills
      end
  | _, _ =>
      show [st_info (lit "Please upload a resume and paste a job description to begin.")]
  end.

End Rendering.

(** The score bars among the widgets: their labels and values. *)
Definition bars_of (ws : list widget) : list (str * Z) :=
  flat_map (fun w =>
              match w with
              | custom_animated_bar label value _ _ => [(label, value)]
              | _ => []
              end) ws.

(** The issue lines among the output calls: the list items the report
    writes with [st.markdown(f"- {issue}")], without the dash and the
    space. *)
Definition issue_of (w : widget) : option str :=
  match w with
  | st_markdown text =>
      if starts_with (lit "- ") text then Some (drop 2 text) else None
  | _ => None
  end.

Definition issue_lines (ws : list widget) : list str :=
  flat_map (fun w => match issue_of w with Some t => [t] | None => [] end) ws.

Definition page_title : widget :=
  st_title ([128196] ++ lit " Resume to Job Description Matcher").
Definition page_intro : widget :=
  st_write (lit "Upload your resume (PDF) and paste a job description to analyze how well they match.").

(** A grammar checker for examples: it reports nothing. *)
Definition silent_tool (_ : str) : list grammar_match := [].

Definition COMMA : char := 44.

(** A visit for examples: one skill, a job description and an upload that
    cannot be opened. *)
Definition broken_visit : inputs toy_fitz :=
  Build_inputs toy_fitz (lit "python") true
               (Some (broken_upload : uploaded toy_fitz))
               (lit "Python developer") false.

(** A model whose similarity is not a number, and a visit that reaches
    it. *)
Definition nan_model : embedder := {|
  tensor := unit;
  encode _ := tt;
  cos_sim _ _ := S754_nan
|}.

(** A similarity of 1.0, a matcher that knows only exact substrings, and a
    visit with two skills. *)
Definition sure_model : embedder := {|
  tensor := unit;
  encode _ := tt;
  cos_sim _ _ := S754_finite false 4503599627370496 (-52)
|}.

Definition exact_ratio (sub s : str) : Z :=
  if contains sub s then 100%Z else 0%Z.

Definition good_visit : inputs two_page_fitz :=
  Build_inputs two_page_fitz (lit "Python, SQL") true
               (Some (tt : uploaded two_page_fitz))
               (lit "Python developer wanted") false.

(** A grammar checker that reports twelve issues whatever the text, and
    a visit with the unlock button pressed. *)
Definition chatty_tool (_ : str) : list grammar_match :=
  replicate 12 {| message := lit "Possible typo"; ruleId := lit "TYPO" |}.

Definition unlocked_visit : inputs two_page_fitz :=
  Build_inputs two_page_fitz (lit "Python, SQL") true
               (Some (tt : uploaded two_page_fitz))
               (lit "Python developer wanted") true.

Definition nan_visit : inputs two_page_fitz :=
  Build_inputs two_page_fitz (lit "python") true
               (Some (tt : uploaded two_page_fitz))
               (lit "Python developer") true.

End Script.

Import Script.

(** ** [Parser.py]: the resume parser of the notebook *)

Module Parser.
#[local] Open Scope N_scope.

(** pdfplumber as the notebook uses it: a path opens as a document with
    pages, and a page gives its text or [None]. *)
Record pdfplumber := {
  plumber_page : Type;
  plumber_open : str -> outcome (list plumber_page);
  extract_text : plumber_page -> outcome (option str)
}.

(** [s.endswith(suffix)] *)
Definition endswith (s suffix : str) : bool :=
  starts_with (rev suffix) (rev s).

Definition not_a_pdf : str :=
  [9888; 65039] ++ lit " File is not a PDF. Proceeding anyway...".
Definition fallback_text : str :=
  lit "This is a sample non-PDF file or fallback content.".
Definition extracted : str :=
  [9989] ++ lit " Resume text extracted successfully!".
Definition no_text_found : str :=
  [9888; 65039] ++ lit " No text found in the PDF. Please check the file.".

Section Notebook.
Variable U : ucd.
Variable plumber : pdfplumber.

Definition extract_text_from_pdf (file_path : str) : outcome str :=
  pdf ← plumber_open plumber file_path;
  for_each (fun text pg =>
              page_text ← extract_text plumber pg;
              mret (match page_text with
                    | Some (c :: t) => text ++ c :: t
                    | _ => text
                    end))
           pdf [].

(** The notebook once the name of the uploaded file is known: the lines it
    prints. *)
Definition notebook (file_name : str) : outcome (list str) :=
  let file_path := lit "/content/" ++ file_name in
  if negb (endswith (lower U file_name) (lit ".pdf")) then
    let resume_text := fallback_text in
    mret [not_a_pdf; resume_text]
  else
    resume_text ← extract_text_from_pdf file_path;
    match strip resume_text with
    | _ :: _ => mret [extracted; take 500 resume_text]
    | [] => mret [no_text_found]
    end.

End Notebook.

(** A document for examples: a page of text, a scanned page, a blank
    page. *)
Definition scanned_plumber : pdfplumber := {|
  plumber_page := option str;
  plumber_open _ := Returns [Some (lit "Jane Doe"); None; Some (lit " ")];
  extract_text pg := Returns pg
|}.

End Parser.

(** ** The keyword extraction snippet *)

Module KeywordExtract.

Section Cleaning.
Variable U : ucd.

(** [re.sub(r'[^\w\s]', '', text)]: the characters that are neither word
    characters nor whitespace are dropped. *)
Definition drop_special (text : str) : str :=
  List.filter (fun c => is_word U c || is_space c) text.

Definition preprocess_text (text : str) : str :=
  let text := sub_runs is_space text in
  let text := drop_special text in
  let text := lower U text in
  text.

End Cleaning.

End KeywordExtract.

(** ** The string builtins at work *)

Example splitlines_crlf :
  splitlines (lit "a" ++ [13; 10] ++ lit "b" ++ [10; 10] ++ lit "c" ++ [10])%N
  = [lit "a"; lit "b"; []; lit "c"].
Proof. reflexivity. Qed.

Example split_words : split (lit "  a bc  d ") = [lit "a"; lit "bc"; lit "d"].
Proof. reflexivity. Qed.

Example count_does_not_overlap : count (lit "aaa") (lit "aa") = 1.
Proof. reflexivity. Qed.

Example count_dashes : count (lit "- - x -y") DASH_SPACE = 2.
Proof. reflexivity. Qed.

Example lower_final_sigma :
  lower ascii_ucd (lit "Ab" ++ [CAPITAL_SIGMA]) = lit "ab" ++ [FINAL_SIGMA].
Proof. reflexivity. Qed.

Example strip_both_ends : strip (lit "  a b ") = lit "a b".
Proof. reflexivity. Qed.

Example isupper_needs_a_cased_character :
  isupper ascii_ucd (lit "HELLO WORLD 1") = true
  ∧ isupper ascii_ucd (lit "1234 5678") = false
  ∧ isupper ascii_ucd (lit "Hello WORLD") = false.
Proof. done. Qed.

(** ** Skills matching *)

Section SkillMatcher.
Variable U : ucd.
Variable partial_ratio : str -> str -> Z.
Variables resume_text job_desc : str.
Variable threshold : Z.

#[local] Abbreviation resume_similarity := (resume_similarity U partial_ratio resume_text).
#[local] Abbreviation job_similarity := (job_similarity U partial_ratio job_desc).
#[local] Abbreviation is_matched := (is_matched U partial_ratio resume_text threshold).
#[local] Abbreviation is_missing :=
  (is_missing U partial_ratio resume_text job_desc threshold).

Lemma classify_skill_spec matched missing skill :
  classify_skill U partial_ratio (lower U resume_text) (lower U job_desc)
                 threshold (matched, missing) skill
  = (matched ++ filter is_matched [skill], missing ++ filter is_missing [skill]).
Proof.
  unfold classify_skill. fold (resume_similarity skill) (job_similarity skill).
  rewrite !filter_cons, !filter_nil.
  destruct (Z.geb_spec (resume_similarity skill) threshold) as [Hr|Hr].
  - rewrite decide_True by (unfold is_matched; lia).
    rewrite decide_False by (unfold is_missing; lia).
    by rewrite app_nil_r.
  - rewrite (decide_False (P := is_matched skill)) by (unfold is_matched; lia).
    rewrite app_nil_r.
    destruct (Z.geb_spec (job_similarity skill) threshold) as [Hj|Hj]; simpl.
    + destruct (Z.ltb_spec (resume_similarity skill) threshold); [|lia].
      by rewrite decide_True by (unfold is_missing; lia).
    + rewrite decide_False by (unfold is_missing; lia).
      by rewrite app_nil_r.
Qed.

Lemma extract_skills_loop skills_list matched missing :
  fold_left (classify_skill U partial_ratio (lower U resume_text)
                            (lower U job_desc) threshold)
            skills_list (matched, missing)
  = (matched ++ filter is_matched skills_list,
     missing ++ filter is_missing skills_list).
Proof.
  revert matched missing.
  induction skills_list as [|skill rest IH]; intros matched missing;
    cbn [fold_left].
  - by rewrite !filter_nil, !app_nil_r.
  - rewrite classify_skill_spec, IH.
    rewrite <- !app_assoc, <- !filter_app. done.
Qed.

(** C1. The skill matcher returns, in the order of the skill list, the
    skills whose resume similarity reaches the threshold as matched and
    those whose job similarity reaches it while the resume similarity
    stays below as missing: membership is exactly that, the two
    sequences are disjoint and each is an order-preserving subsequence of
    the skill list. *)
Theorem extract_skills_partition (skills_list : list str) :
  let '(matched, missing) :=
    extract_skills U partial_ratio resume_text job_desc skills_list threshold in
  matched = filter is_matched skills_list
  ∧ missing = filter is_missing skills_list
  ∧ (∀ skill, skill ∈ matched ↔
       skill ∈ skills_list ∧ (resume_similarity skill >= threshold)%Z)
  ∧ (∀ skill, skill ∈ missing ↔
       skill ∈ skills_list ∧ (job_similarity skill >= threshold)%Z
       ∧ (resume_similarity skill < threshold)%Z)
  ∧ matched ## missing
  ∧ matched `sublist_of` skills_list
  ∧ missing `sublist_of` skills_list.
Proof.
  unfold extract_skills. rewrite extract_skills_loop. simpl.
  split_and!; try done; try apply sublist_filter.
  - intros skill. rewrite list_elem_of_filter. unfold Spec.is_matched.
    intuition lia.
  - intros skill. rewrite list_elem_of_filter. unfold Spec.is_missing.
    intuition lia.
  - intros skill [Hm _]%list_elem_of_filter [[_ Hn] _]%list_elem_of_filter.
    unfold Spec.is_matched in Hm. lia.
Qed.

End SkillMatcher.

(** ** Style score *)

(** C5. The style score is a step function of the number of bullet markers:
    100 from 10 markers, 75 from 5, 50 from 3 and 25 below; so it takes one
    of these four values and never decreases when the number of markers
    grows. *)
Theorem calculate_style_score_steps (text text' : str) :
  let b := bullet_markers text in
  (10 ≤ b → calculate_style_score text = 100%Z)
  ∧ (5 ≤ b < 10 → calculate_style_score text = 75%Z)
  ∧ (3 ≤ b < 5 → calculate_style_score text = 50%Z)
  ∧ (b < 3 → calculate_style_score text = 25%Z)
  ∧ calculate_style_score text ∈ [25; 50; 75; 100]%Z
  ∧ (bullet_markers text = bullet_markers text' →
     calculate_style_score text = calculate_style_score text')
  ∧ (bullet_markers text ≤ bullet_markers text' →
     (calculate_style_score text <= calculate_style_score text')%Z).
Proof.
  unfold calculate_style_score. fold (bullet_markers text) (bullet_markers text').
  generalize (bullet_markers text) (bullet_markers text'). intros b b'. cbv zeta.
  repeat match goal with
         | |- context [(?n <=? ?m)%nat] => destruct (Nat.leb_spec n m)
         end;
    split_and!; intros; try lia; try done; rewrite !elem_of_cons; auto.
Qed.

(** ** Formatting checks *)

Section Formatting.
Variable U : ucd.

(** The issue list is the concatenation of three optional entries. *)
Lemma check_formatting_parts (text : str) :
  check_formatting U text
  = (if (count text [BULLET] <? 3)%nat && (count text DASH_SPACE <? 3)%nat
     then [msg_bullets] else [])
    ++ (if existsb (fun line => isupper U line && (10 <? length line)%nat)
                   (splitlines text)
        then [msg_all_caps] else [])
    ++ (match long_lines text with
        | [] => []
        | _ => [msg_long_lines (length (long_lines text))]
        end).
Proof.
  unfold check_formatting. fold (long_lines text).
  destruct (_ && _), (existsb _ _), (long_lines text); reflexivity.
Qed.

Lemma to_uint_not_nil (n : nat) : Nat.to_uint n ≠ Decimal.Nil.
Proof.
  intros E.
  pose proof (DecimalNat.Unsigned.to_of (Nat.to_uint n)) as H.
  rewrite DecimalNat.Unsigned.of_to, E in H. discriminate H.
Qed.

Lemma digits_of_uint_inj (d d' : Decimal.uint) :
  digits_of_uint d = digits_of_uint d' → d = d'.
Proof.
  revert d'. induction d; destruct d'; simpl; intros E;
    try discriminate E; try reflexivity;
    f_equal; apply IHd; congruence.
Qed.

Lemma str_of_nat_inj (n m : nat) : str_of_nat n = str_of_nat m → n = m.
Proof.
  intros E. by apply DecimalNat.Unsigned.to_uint_inj, digits_of_uint_inj.
Qed.

(** A rendered number starts with a decimal digit. *)
Lemma str_of_nat_head (n : nat) :
  ∃ c rest, str_of_nat n = c :: rest ∧ (48 <= c <= 57)%N.
Proof.
  unfold str_of_nat. pose proof (to_uint_not_nil n) as H.
  destruct (Nat.to_uint n); [done| ..]; simpl; eexists _, _; (split; [reflexivity|lia]).
Qed.

Lemma msg_long_lines_inj (n m : nat) :
  msg_long_lines n = msg_long_lines m → n = m.
Proof.
  unfold msg_long_lines. intros E. by apply app_inv_tail, str_of_nat_inj in E.
Qed.

Lemma msg_long_lines_head (n : nat) :
  ∃ c rest, msg_long_lines n = c :: rest ∧ (48 <= c <= 57)%N.
Proof.
  destruct (str_of_nat_head n) as (c & rest & E & Hc).
  unfold msg_long_lines. rewrite E. by eexists _, _.
Qed.

Lemma msg_bullets_not_all_caps : msg_bullets ≠ msg_all_caps.
Proof. intros E. vm_compute in E. discriminate E. Qed.

Lemma msg_long_lines_not_bullets (n : nat) : msg_long_lines n ≠ msg_bullets.
Proof.
  destruct (msg_long_lines_head n) as (c & rest & E & Hc). rewrite E.
  intros E'. vm_compute in E'. injection E' as -> _. lia.
Qed.

Lemma msg_long_lines_not_all_caps (n : nat) : msg_long_lines n ≠ msg_all_caps.
Proof.
  destruct (msg_long_lines_head n) as (c & rest & E & Hc). rewrite E.
  intros E'. vm_compute in E'. injection E' as -> _. lia.
Qed.

Lemma all_caps_test (text : str) :
  existsb (fun line => isupper U line && (10 <? length line)%nat)
          (splitlines text) = true
  ↔ has_all_caps_line U text.
Proof.
  rewrite existsb_exists. unfold has_all_caps_line.
  split; intros (line & Hin & H); exists line.
  - apply andb_true_iff in H as [? ?%Nat.ltb_lt]. by rewrite list_elem_of_In.
  - destruct H as [-> ?%Nat.ltb_lt]. rewrite <- list_elem_of_In. by rewrite H.
Qed.

Lemma long_lines_nonempty (text : str) :
  0 < length (long_lines text)
  ↔ ∃ line, line ∈ splitlines text ∧ 160 < length line.
Proof.
  unfold long_lines. split.
  - destruct (List.filter _ _) as [|line rest] eqn:E; simpl; [lia|]. intros _.
    assert (In line (List.filter (fun line => (160 <? length line)%nat)
                                 (splitlines text))) as Hin
      by (rewrite E; by left).
    apply filter_In in Hin as [Hin ?%Nat.ltb_lt].
    exists line. by rewrite list_elem_of_In.
  - intros (line & Hin%list_elem_of_In & Hlen).
    assert (In line (List.filter (fun line => (160 <? length line)%nat)
                                 (splitlines text))) as Hin'
      by (apply filter_In; split; [done|by apply Nat.ltb_lt]).
    destruct (List.filter _ _); [done|simpl; lia].
Qed.

Lemma elem_of_issue_parts (bullets caps : bool) (long : list str) (issue : str) :
  issue ∈ issue_parts bullets caps long
  ↔ (bullets = true ∧ issue = msg_bullets)
    ∨ (caps = true ∧ issue = msg_all_caps)
    ∨ (long ≠ [] ∧ issue = msg_long_lines (length long)).
Proof.
  unfold issue_parts.
  destruct bullets, caps, long as [|l0 ls];
    rewrite ?elem_of_app, ?elem_of_cons, ?elem_of_nil; intuition congruence.
Qed.

Ltac msg_clash :=
  match goal with
  | E : msg_bullets = msg_all_caps |- _ =>
      destruct (msg_bullets_not_all_caps E)
  | E : msg_all_caps = msg_bullets |- _ =>
      destruct (msg_bullets_not_all_caps (eq_sym E))
  | E : msg_long_lines ?n = msg_bullets |- _ =>
      destruct (msg_long_lines_not_bullets n E)
  | E : msg_bullets = msg_long_lines ?n |- _ =>
      destruct (msg_long_lines_not_bullets n (eq_sym E))
  | E : msg_long_lines ?n = msg_all_caps |- _ =>
      destruct (msg_long_lines_not_all_caps n E)
  | E : msg_all_caps = msg_long_lines ?n |- _ =>
      destruct (msg_long_lines_not_all_caps n (eq_sym E))
  end.

Lemma length_pos_nonempty {A} (l : list A) : 0 < length l ↔ l ≠ [].
Proof. destruct l; simpl; split; (done || lia). Qed.

(** C2, as the code has it. The bullet-point suggestion is emitted exactly
    when the text has fewer than 3 bullet characters and also fewer than 3
    dash-space markers (each count taken alone); the ALL-CAPS warning exactly
    when some line is upper case and longer than 10 characters; and a
    long-line issue for a count n exactly when n is the number of lines
    longer than 160 characters and is not zero, that is when such a line
    exists. *)
Theorem check_formatting_issues (text : str) :
  let issues := check_formatting U text in
  (msg_bullets ∈ issues ↔
     count text [BULLET] < 3 ∧ count text DASH_SPACE < 3)
  ∧ (msg_all_caps ∈ issues ↔ has_all_caps_line U text)
  ∧ (∀ n, msg_long_lines n ∈ issues ↔
       n = length (long_lines text) ∧ 0 < n)
  ∧ ((∃ n, msg_long_lines n ∈ issues) ↔
       ∃ line, line ∈ splitlines text ∧ 160 < length line).
Proof.
  cbv zeta. rewrite <- long_lines_nonempty, check_formatting_parts.
  fold (issue_parts ((count text [BULLET] <? 3)%nat
                     && (count text DASH_SPACE <? 3)%nat)
          (existsb (fun line => isupper U line && (10 <? length line)%nat)
                   (splitlines text))
          (long_lines text)).
  assert (∀ n, msg_long_lines n ∈ issue_parts
                 ((count text [BULLET] <? 3)%nat
                  && (count text DASH_SPACE <? 3)%nat)
                 (existsb (fun line => isupper U line && (10 <? length line)%nat)
                          (splitlines text))
                 (long_lines text)
               ↔ n = length (long_lines text) ∧ 0 < n) as Hlong.
  { intros n. rewrite elem_of_issue_parts. split.
    - intros [[_ E]|[[_ E]|[Hne E]]]; try msg_clash.
      apply msg_long_lines_inj in E as ->. by rewrite length_pos_nonempty.
    - intros [-> Hne%length_pos_nonempty]. right; right. done. }
  split_and!.
  - rewrite elem_of_issue_parts, andb_true_iff, !Nat.ltb_lt. split.
    + intros [[H _]|[[_ E]|[_ E]]]; [done|msg_clash..].
    + intros H. by left.
  - rewrite elem_of_issue_parts, all_caps_test. split.
    + intros [[_ E]|[[H _]|[_ E]]]; [msg_clash|done|msg_clash].
    + intros H. right; by left.
  - exact Hlong.
  - split.
    + intros (n & [-> H]%Hlong). done.
    + intros H. exists (length (long_lines text)). by apply Hlong.
Qed.

(** C8. The issue list has at most 3 entries, they are pairwise different,
    they come in the order bullets, capitals, long lines, each being one of
    these three issues, and at most one long-line issue is among them. *)
Theorem check_formatting_at_most_three (text : str) :
  let issues := check_formatting U text in
  length issues ≤ 3
  ∧ NoDup issues
  ∧ issues `sublist_of`
      [msg_bullets; msg_all_caps; msg_long_lines (length (long_lines text))]
  ∧ (∀ issue, issue ∈ issues →
       issue = msg_bullets ∨ issue = msg_all_caps
       ∨ ∃ n, issue = msg_long_lines n)
  ∧ (∀ n m, msg_long_lines n ∈ issues → msg_long_lines m ∈ issues → n = m).
Proof.
  cbv zeta. rewrite check_formatting_parts.
  fold (issue_parts ((count text [BULLET] <? 3)%nat
                     && (count text DASH_SPACE <? 3)%nat)
          (existsb (fun line => isupper U line && (10 <? length line)%nat)
                   (splitlines text))
          (long_lines text)).
  generalize ((count text [BULLET] <? 3)%nat && (count text DASH_SPACE <? 3)%nat)
             (existsb (fun line => isupper U line && (10 <? length line)%nat)
                      (splitlines text))
             (long_lines text).
  intros bullets caps long.
  assert (issue_parts bullets caps long `sublist_of`
            [msg_bullets; msg_all_caps; msg_long_lines (length long)]) as Hsub.
  { unfold issue_parts. destruct bullets, caps, long as [|l0 ls]; simpl app;
      repeat first [ apply sublist_nil | apply sublist_skip
                   | apply sublist_cons ]. }
  assert (NoDup [msg_bullets; msg_all_caps; msg_long_lines (length long)])
    as Hnd.
  { repeat (apply NoDup_cons; split);
      rewrite ?elem_of_cons, ?elem_of_nil; try apply NoDup_nil_2;
      intros H; repeat destruct H as [H|H]; try done; msg_clash. }
  split_and!.
  - apply sublist_length in Hsub. simpl in Hsub. lia.
  - by eapply sublist_NoDup.
  - done.
  - intros issue. rewrite elem_of_issue_parts.
    intros [[_ ->]|[[_ ->]|[_ ->]]]; eauto.
  - intros n m. rewrite !elem_of_issue_parts.
    intros [[_ E]|[[_ E]|[_ E]]]; try msg_clash.
    intros [[_ E']|[[_ E']|[_ E']]]; try msg_clash.
    apply msg_long_lines_inj. congruence.
Qed.

End Formatting.

(** C2, as the specification words it, fails: with two bullets and two
    dashes the text has 4 markers in total, and the suggestion is emitted
    all the same. *)
Lemma check_formatting_total_counterexample :
  ¬ (msg_bullets ∈ check_formatting ascii_ucd two_and_two
     ↔ bullet_markers two_and_two < 3).
Proof.
  intros [Himp _].
  assert (msg_bullets ∈ check_formatting ascii_ucd two_and_two) as Hin
    by (vm_compute; left).
  apply Himp in Hin. vm_compute in Hin. lia.
Qed.

(** ** Resume to job description comparison *)

Section Comparison.
Variable U : ucd.
Variable partial_ratio : str -> str -> Z.
Variable model : embedder.

(** C7. When the preprocessed resume or the preprocessed job description is
    empty, the comparison returns no similarity ([None]) with two empty skill
    lists, and the embedding model is not called. *)
Theorem compare_resume_with_job_empty (resume_text job_desc : str)
    (skills_list : list str) :
  preprocess_text U resume_text = [] ∨ preprocess_text U job_desc = [] →
  compare_resume_with_job U partial_ratio model resume_text job_desc skills_list
  = ((None, [], []), []).
Proof.
  unfold compare_resume_with_job. intros [-> | ->]; [done|].
  by destruct (preprocess_text U resume_text).
Qed.

End Comparison.

Lemma compare_resume_with_job_empty_witness :
  compare_resume_with_job ascii_ucd no_ratio null_model
    (lit " -- ") (lit "Python developer") [lit "python"]
  = ((None, [], []), []).
Proof.
  apply (compare_resume_with_job_empty ascii_ucd no_ratio null_model).
  left. vm_compute. reflexivity.
Defined.

(** ** PDF text extraction *)

Section Extraction.
Variable fitz : pdf_library.

Lemma read_failure_raises (f : uploaded fitz) (e : exn) :
  read fitz f = Raises e → read_pdf_text fitz f = Raises e.
Proof. unfold read_pdf_text. by intros ->. Qed.

Lemma open_failure_raises (f : uploaded fitz) (bytes : list Byte.byte) (e : exn) :
  read fitz f = Returns bytes → fitz_open fitz bytes = Raises e →
  read_pdf_text fitz f = Raises e.
Proof. unfold read_pdf_text. intros Hr Ho. rewrite Hr. cbn. by rewrite Ho. Qed.

(** The loop over the pages stops at the first page whose text cannot be
    extracted. *)
Lemma page_failure_stops (before after : list (page fitz)) (pg : page fitz)
    (e : exn) (text : str) :
  Forall (fun p => ∃ t, get_text fitz p = Returns t) before →
  get_text fitz pg = Raises e →
  for_each (fun text p => t ← get_text fitz p; mret (text ++ t))
           (before ++ pg :: after) text
  = Raises e.
Proof.
  intros Hok Hpg. revert text.
  induction Hok as [|p before [t Hp] _ IH]; intros text; simpl.
  - by rewrite Hpg.
  - rewrite Hp. simpl. apply IH.
Qed.

Lemma page_failure_raises (f : uploaded fitz) (bytes : list Byte.byte)
    (d : doc fitz) (before after : list (page fitz)) (pg : page fitz) (e : exn) :
  read fitz f = Returns bytes → fitz_open fitz bytes = Returns d →
  pages fitz d = before ++ pg :: after →
  Forall (fun p => ∃ t, get_text fitz p = Returns t) before →
  get_text fitz pg = Raises e →
  read_pdf_text fitz f = Raises e.
Proof.
  unfold read_pdf_text. intros Hr Ho Hp Hok Hpg.
  rewrite Hr. cbn. rewrite Ho. cbn. rewrite Hp.
  by rewrite (page_failure_stops before after pg e).
Qed.

(** C3, as the code has it. The extractor never raises. When the [try]
    block raises (in particular when the stream cannot be opened) it shows
    one error message and returns the empty string; when the block returns
    a text, that text is returned and nothing is shown.  So a failure and
    a valid document without text give the same return value. *)
Theorem extract_text_from_pdf_catches (f : uploaded fitz) :
  (∀ e, read_pdf_text fitz f = Raises e →
     extract_text_from_pdf fitz f
     = (Returns [], [st_error (lit "Error reading PDF: " ++ exn_message e)]))
  ∧ (∀ bytes e, read fitz f = Returns bytes →
       fitz_open fitz bytes = Raises e →
       extract_text_from_pdf fitz f
       = (Returns [], [st_error (lit "Error reading PDF: " ++ exn_message e)]))
  ∧ (∀ text, read_pdf_text fitz f = Returns text →
       extract_text_from_pdf fitz f = (Returns text, []))
  ∧ (∃ text, (extract_text_from_pdf fitz f).1 = Returns text)
  ∧ (∀ g e, read_pdf_text fitz f = Raises e →
       read_pdf_text fitz g = Returns [] →
       (extract_text_from_pdf fitz f).1 = (extract_text_from_pdf fitz g).1).
Proof.
  unfold extract_text_from_pdf. split_and!.
  - by intros e ->.
  - intros bytes e Hr Ho. by rewrite (open_failure_raises f bytes e).
  - by intros text ->.
  - destruct (read_pdf_text fitz f); simpl; eauto.
  - by intros g e -> ->.
Qed.

End Extraction.

(** C3, as the specification words it, fails: a stream that cannot be opened
    does not make the extractor raise, and what it returns is what it
    returns for a document without text. *)
Lemma extract_text_from_pdf_failure_counterexample :
  let failed := extract_text_from_pdf toy_fitz broken_upload in
  let empty := extract_text_from_pdf toy_fitz blank_upload in
  fitz_open toy_fitz broken_upload
  = Raises (exception LibraryError (lit "cannot open empty document"))
  ∧ read_pdf_text toy_fitz blank_upload = Returns []
  ∧ (¬ ∃ e, failed.1 = Raises e)
  ∧ failed.1 = empty.1.
Proof.
  cbv zeta. split_and!; try reflexivity.
  intros [e He]. vm_compute in He. discriminate He.
Qed.

(** ** Text preprocessing *)

(** Boolean comparisons on code points as linear arithmetic. *)
Ltac code_points :=
  repeat match goal with
         | H : _ && _ = true |- _ => apply andb_true_iff in H as [? ?]
         | H : _ || _ = true |- _ => apply orb_true_iff in H as [?|?]
         | H : _ && _ = false |- _ => apply andb_false_iff in H as [?|?]
         | H : _ || _ = false |- _ => apply orb_false_iff in H as [? ?]
         | H : (_ <=? _)%N = true |- _ => apply N.leb_le in H
         | H : (_ <=? _)%N = false |- _ => apply N.leb_gt in H
         | H : (_ =? _)%N = true |- _ => apply N.eqb_eq in H
         | H : (_ =? _)%N = false |- _ => apply N.eqb_neq in H
         end;
  try lia.

Lemma ascii_ucd_laws : ucd_laws ascii_ucd.
Proof.
  split; try reflexivity.
  - intros c d. unfold is_word, CAPITAL_SIGMA, UNDERSCORE. simpl.
    unfold ascii_upper, ascii_lower, ascii_digit.
    destruct ((65 <=? c)%N && (c <=? 90)%N) eqn:Hc;
      intros ->%list_elem_of_singleton; intros Hw.
    + destruct ((65 <=? c + 32)%N && (c + 32 <=? 90)%N) eqn:Hd;
        code_points; split; (done || lia).
    + rewrite Hc. split; [done|]. rewrite Hc in Hw. code_points.
  - intros c. unfold is_word, is_space, UNDERSCORE. simpl.
    unfold ascii_upper, ascii_lower, ascii_digit.
    intros Hw.
    repeat match goal with
           | |- _ || _ = false => apply orb_false_iff; split
           | |- _ && _ = false => apply andb_false_iff
           | |- (_ =? _)%N = false => apply N.eqb_neq
           end; code_points;
      try (destruct (N.leb_spec 9 c); [right|left]; code_points; apply N.leb_gt; lia);
      try (destruct (N.leb_spec 28 c); [right|left]; code_points; apply N.leb_gt; lia);
      try (destruct (N.leb_spec 8192 c); [right|left]; code_points; apply N.leb_gt; lia).
Qed.

Section Preprocess.
Variable U : ucd.
Hypothesis laws : ucd_laws U.

Lemma space_not_word : is_word U SPACE = false.
Proof using laws.
  destruct (is_word U SPACE) eqn:E; [|done].
  by apply (word_not_space U laws) in E.
Qed.

(** [c.lower() == c] for one character. *)
Lemma lower_single (c : char) :
  lower U [c] = [c] ↔ c ≠ CAPITAL_SIGMA ∧ lower_full U c = [c].
Proof.
  unfold lower, do_lower, lower_ucs4. rewrite app_nil_r.
  destruct (N.eqb_spec c CAPITAL_SIGMA) as [->|Hne].
  - unfold handle_capital_sigma. simpl. split; [|by intros [? _]].
    intros E. vm_compute in E. discriminate E.
  - split; [by intros ->|by intros [_ ->]].
Qed.

Lemma sigma_lowered (before after : str) :
  lower U [handle_capital_sigma U before after]
  = [handle_capital_sigma U before after].
Proof using laws.
  apply lower_single. unfold handle_capital_sigma.
  destruct (_ && _); split; try done;
    [apply (final_sigma_stable U laws) | apply (small_sigma_stable U laws)].
Qed.

(** Every word character of a lowered text is a lowered one. *)
Lemma do_lower_words (before s : str) :
  Forall (fun d => is_word U d = true → lower U [d] = [d]) (do_lower U before s).
Proof using laws.
  revert before. induction s as [|c s IH]; intros before; simpl; [done|].
  apply Forall_app. split; [|apply IH].
  unfold lower_ucs4. destruct (c =? CAPITAL_SIGMA)%N.
  - apply Forall_singleton. intros _. apply sigma_lowered.
  - apply Forall_forall. intros d Hd Hw. apply lower_single.
    destruct (lower_full_stable U laws c d Hd Hw). done.
Qed.

(** What replacing the runs of non-word characters leaves: lowered word
    characters and single spaces; behind a run no space comes first. *)
Lemma sub_runs_from_shape (in_run : bool) (s : str) :
  Forall (fun d => is_word U d = true → lower U [d] = [d]) s →
  let out := sub_runs_from (is_nonword U) in_run s in
  Forall (fun c => c = SPACE ∨ lowered_word U c) out
  ∧ spaced out
  ∧ (in_run = true → head out ≠ Some SPACE).
Proof using laws.
  intros Hs. revert in_run. cbv zeta.
  induction Hs as [|c s Hc _ IH]; intros in_run; simpl.
  { split_and!; [constructor|done|done]. }
  destruct (is_nonword U c) eqn:Hn; unfold is_nonword in Hn;
    [apply negb_true_iff in Hn|apply negb_false_iff in Hn; rename Hn into Hw];
    simpl; cycle 1.
  - destruct (IH false) as (IH1 & IH2 & _).
    assert (c ≠ SPACE) as Hne.
    { intros ->. by rewrite space_not_word in Hw. }
    split_and!.
    + constructor; [right; split; [done|apply lower_single; auto]|done].
    + destruct (sub_runs_from _ false s); simpl; [done|]. split; [|done].
      by intros [? _].
    + intros _ [=]. done.
  - destruct (IH true) as (IH1 & IH2 & IH3).
    destruct in_run; simpl; [done|].
    split_and!; [by constructor; [left|] | | done].
    destruct (sub_runs_from _ true s) as [|b rest]; simpl; [done|].
    split; [|done]. intros [_ ->]. by apply IH3.
Qed.

(** *** Stripping *)

Lemma lstrip_suffix (s : str) : ∃ t, s = t ++ lstrip s.
Proof.
  induction s as [|c s [t IH]]; simpl; [by exists []|].
  destruct (is_space c); [|by exists []].
  exists (c :: t). simpl. by f_equal.
Qed.

Lemma rstrip_prefix (s : str) : ∃ t, s = rstrip s ++ t.
Proof.
  induction s as [|c s [t IH]]; simpl; [by exists []|].
  destruct (rstrip s) as [|d r] eqn:E.
  - destruct (is_space c); [by exists (c :: s)|]. exists s. done.
  - exists t. simpl. by f_equal.
Qed.

Lemma lstrip_head (s : str) (c : char) :
  head (lstrip s) = Some c → is_space c = false.
Proof.
  induction s as [|d s IH]; simpl; [done|].
  destruct (is_space d) eqn:E; [done|]. simpl. by intros [= <-].
Qed.

Lemma rstrip_last (s : str) (c : char) :
  last (rstrip s) = Some c → is_space c = false.
Proof.
  induction s as [|d s IH]; simpl; [done|].
  destruct (rstrip s) as [|e r] eqn:E.
  - destruct (is_space d) eqn:Hd; [done|]. simpl. by intros [= <-].
  - exact IH.
Qed.

Lemma rstrip_head (s : str) (c : char) :
  head (rstrip s) = Some c → head s = Some c.
Proof.
  destruct s as [|d s]; simpl; [done|].
  destruct (rstrip s); [|done]. by destruct (is_space d).
Qed.

Lemma lstrip_fixed (s : str) :
  (∀ c, head s = Some c → is_space c = false) → lstrip s = s.
Proof. destruct s as [|c s]; simpl; [done|]. intros H. by rewrite H. Qed.

Lemma rstrip_fixed (s : str) :
  (∀ c, last s = Some c → is_space c = false) → rstrip s = s.
Proof.
  induction s as [|c s IH]; simpl; [done|]. intros H.
  destruct s as [|d s].
  - simpl. by rewrite H.
  - rewrite IH; [done|]. intros e He. apply H. exact He.
Qed.

(** *** Strings without doubled spaces *)

Lemma spaced_app_l (l1 l2 : str) : spaced (l1 ++ l2) → spaced l1.
Proof.
  induction l1 as [|a [|b l1] IH]; simpl; try done.
  intros [? ?]. split; [done|]. by apply IH.
Qed.

Lemma spaced_app_r (l1 l2 : str) : spaced (l1 ++ l2) → spaced l2.
Proof.
  induction l1 as [|a l1 IH]; [done|]. intros H. apply IH.
  simpl in H. destruct (l1 ++ l2); [done|]. by destruct H.
Qed.

Lemma spaced_no_double (s l1 l2 : str) :
  spaced s → s ≠ l1 ++ SPACE :: SPACE :: l2.
Proof.
  intros Hs ->. apply spaced_app_r in Hs. simpl in Hs. by destruct Hs as [[] _].
Qed.

(** *** The shape of a preprocessed text *)

Lemma preprocess_text_clean (text : str) : clean U (preprocess_text U text).
Proof using laws.
  unfold preprocess_text, strip, sub_runs, lower.
  destruct (sub_runs_from_shape false _ (do_lower_words [] text))
    as (Hall & Hsp & _).
  set (s := sub_runs_from (is_nonword U) false (do_lower U [] text)) in *.
  destruct (lstrip_suffix s) as [t1 E1].
  destruct (rstrip_prefix (lstrip s)) as [t2 E2].
  rewrite E1, E2 in Hall, Hsp.
  split_and!.
  - by apply Forall_app in Hall as [_ [? _]%Forall_app].
  - by apply spaced_app_r, spaced_app_l in Hsp.
  - intros c Hc%rstrip_head. by apply lstrip_head in Hc.
  - apply rstrip_last.
Qed.

Lemma do_lower_fixed (before s : str) :
  Forall (fun c => c = SPACE ∨ lowered_word U c) s → do_lower U before s = s.
Proof using laws.
  intros Hs. revert before.
  induction Hs as [|c s Hc _ IH]; intros before; simpl; [done|].
  rewrite IH. unfold lower_ucs4.
  destruct Hc as [->|(_ & Hne & Hc)].
  - simpl. by rewrite (space_stable U laws).
  - apply N.eqb_neq in Hne. by rewrite Hne, Hc.
Qed.

Lemma sub_runs_from_fixed (in_run : bool) (s : str) :
  Forall (fun c => c = SPACE ∨ lowered_word U c) s → spaced s →
  (in_run = true → head s ≠ Some SPACE) →
  sub_runs_from (is_nonword U) in_run s = s.
Proof using laws.
  intros Hs. revert in_run.
  induction Hs as [|c s Hc _ IH]; intros in_run Hsp Hhd; simpl; [done|].
  assert (spaced s) as Hsp' by (by apply (spaced_app_r [c])).
  destruct Hc as [->|[Hw _]].
  - unfold is_nonword. rewrite space_not_word. simpl.
    destruct in_run; [by destruct Hhd|]. simpl. f_equal.
    apply IH; [done|]. intros _ Hs'. destruct s as [|d s]; [done|].
    simpl in Hs', Hsp. injection Hs' as ->. by destruct Hsp as [[] _].
  - unfold is_nonword. rewrite Hw. simpl. f_equal. by apply IH.
Qed.

Lemma clean_fixed (s : str) : clean U s → preprocess_text U s = s.
Proof using laws.
  intros (Hall & Hsp & Hhd & Hlast).
  unfold preprocess_text, strip, sub_runs, lower.
  rewrite do_lower_fixed, sub_runs_from_fixed, lstrip_fixed, rstrip_fixed; done.
Qed.

(** C6. Preprocessing a preprocessed text changes nothing. *)
Theorem preprocess_text_idempotent (text : str) :
  preprocess_text U (preprocess_text U text) = preprocess_text U text.
Proof using laws. apply clean_fixed, preprocess_text_clean. Qed.

(** C9, amended. A preprocessed text consists of spaces and of word
    characters that are their own lowercase, has no two spaces in a row, and
    neither starts nor ends with a whitespace character. *)
Theorem preprocess_text_shape (text : str) :
  let out := preprocess_text U text in
  Forall (fun c => c = SPACE ∨ lowered_word U c) out
  ∧ (∀ l1 l2, out ≠ l1 ++ SPACE :: SPACE :: l2)
  ∧ (∀ c, head out = Some c → is_space c = false)
  ∧ (∀ c, last out = Some c → is_space c = false).
Proof using laws.
  destruct (preprocess_text_clean text) as (Hall & Hsp & Hhd & Hlast).
  cbv zeta. split_and!; try done.
  intros l1 l2. by apply spaced_no_double.
Qed.

End Preprocess.

Lemma preprocess_text_idempotent_witness :
  preprocess_text ascii_ucd
    (preprocess_text ascii_ucd (lit "  Hello, World -- 42! "))
  = preprocess_text ascii_ucd (lit "  Hello, World -- 42! ").
Proof. apply (preprocess_text_idempotent ascii_ucd ascii_ucd_laws). Defined.

Lemma preprocess_text_shape_witness :
  let out := preprocess_text ascii_ucd (lit "  Hello, World -- 42! ") in
  Forall (fun c => c = SPACE ∨ lowered_word ascii_ucd c) out
  ∧ (∀ l1 l2, out ≠ l1 ++ SPACE :: SPACE :: l2)
  ∧ (∀ c, head out = Some c → is_space c = false)
  ∧ (∀ c, last out = Some c → is_space c = false).
Proof. apply (preprocess_text_shape ascii_ucd ascii_ucd_laws). Defined.

Example preprocess_text_hello :
  preprocess_text ascii_ucd (lit "  Hello, World -- 42! ") = lit "hello world 42".
Proof. reflexivity. Qed.

(** The tables with the letterlike symbol satisfy the laws as well. *)
Lemma letterlike_ucd_laws : ucd_laws letterlike_ucd.
Proof.
  destruct ascii_ucd_laws as [Hstable ? ? ? Hspace].
  split; [|done|done|done|].
  - intros c d Hd Hw.
    assert (lower_full ascii_ucd d = [d] ∧ d ≠ CAPITAL_SIGMA); [|done].
    unfold is_word in Hw. cbn [is_alnum letterlike_ucd] in Hw.
    destruct (d =? DOUBLE_STRUCK_C)%N eqn:E.
    + apply N.eqb_eq in E. by rewrite E.
    + apply (Hstable c d Hd). unfold is_word.
      by rewrite orb_false_r in Hw.
  - intros c Hw. unfold is_word in Hw. cbn [is_alnum letterlike_ucd] in Hw.
    destruct (c =? DOUBLE_STRUCK_C)%N eqn:E.
    + apply N.eqb_eq in E. by rewrite E.
    + apply Hspace. unfold is_word. by rewrite orb_false_r in Hw.
Qed.

(** C9, as the specification words it, fails: an upper-case letter without
    lowercase mapping is its own lowercase, so the preprocessor returns it,
    and the text returned is in upper case ([str.isupper]). *)
Lemma preprocess_text_lowercase_counterexample :
  let text := [DOUBLE_STRUCK_C; DOUBLE_STRUCK_C; DOUBLE_STRUCK_C] in
  let out := preprocess_text letterlike_ucd text in
  out = text
  ∧ isupper letterlike_ucd out = true
  ∧ ¬ Forall (fun c => c = SPACE ∨ lowercase_word letterlike_ucd c) out.
Proof.
  cbv zeta.
  change (preprocess_text letterlike_ucd _)
    with [DOUBLE_STRUCK_C; DOUBLE_STRUCK_C; DOUBLE_STRUCK_C].
  split_and!; [done|done|].
  intros [[E|[_ E]] _]%Forall_cons; vm_compute in E; discriminate E.
Qed.

(** ** Bounds on rounded binary numbers *)

Section RoundingBounds.
Variables prec emax : Z.
#[local] Open Scope Z_scope.

Lemma shr_1_below (K : Z) (mrs : shr_record) :
  below (2 * K) mrs → below K (shr_1 mrs).
Proof.
  destruct mrs as [m r s]. unfold below. simpl.
  intros [Hm Hin].
  destruct m as [|[p|p|]|p]; simpl; try lia;
    destruct r, s; simpl in *; split; try lia; intros _; lia.
Qed.

Lemma pow2_xO (p : positive) : 2 ^ Zpos p~0 = 2 ^ Zpos p * 2 ^ Zpos p.
Proof.
  replace (Zpos p~0) with (Zpos p + Zpos p) by lia.
  apply Z.pow_add_r; lia.
Qed.

Lemma pow2_xI (p : positive) : 2 ^ Zpos p~1 = 2 * (2 ^ Zpos p * 2 ^ Zpos p).
Proof.
  replace (Zpos p~1) with (1 + (Zpos p + Zpos p)) by lia.
  rewrite !Z.pow_add_r by lia. by rewrite Z.pow_1_r.
Qed.

Lemma iter_shr_1_below (p : positive) :
  ∀ K mrs, below (2 ^ Zpos p * K) mrs →
           below K (SpecFloat.iter_pos shr_1 p mrs).
Proof.
  induction p as [p IH|p IH|]; intros K mrs H; simpl.
  - apply IH, IH, shr_1_below.
    replace (2 * (2 ^ Zpos p * (2 ^ Zpos p * K))) with (2 ^ Zpos p~1 * K);
      [done|]. rewrite pow2_xI. lia.
  - apply IH, IH.
    replace (2 ^ Zpos p * (2 ^ Zpos p * K)) with (2 ^ Zpos p~0 * K); [done|].
    rewrite pow2_xO. lia.
  - apply shr_1_below. by rewrite Z.pow_1_r in H.
Qed.

Lemma round_nearest_even_below (K : Z) (mrs : shr_record) :
  below K mrs →
  0 <= round_nearest_even (shr_m mrs) (loc_of_shr_record mrs) <= K.
Proof.
  destruct mrs as [m r s]. unfold below. simpl. intros [Hm Hin].
  destruct r, s; simpl in *; try destruct (Z.even m); lia.
Qed.

Lemma below_of_loc (K m : Z) (l : location) :
  below K (shr_record_of_loc m l)
  ↔ 0 <= m <= K ∧ (l ≠ loc_Exact → m < K).
Proof.
  unfold below. destruct l as [|[]]; simpl; intuition (done || lia).
Qed.

(** *** Numbers of binary digits *)

Lemma Zdigits2_log2 (m : Z) : 0 < m → Zdigits2 m = Z.log2 m + 1.
Proof.
  destruct m as [|p|p]; try lia. intros _. simpl.
  assert (∀ q, digits2_pos q = Pos.size q) as E
    by (induction q; simpl; congruence).
  rewrite E. destruct p; simpl; lia.
Qed.

Lemma Zdigits2_mono (a b : Z) : 0 <= a <= b → Zdigits2 a <= Zdigits2 b.
Proof.
  intros [Ha Hab]. destruct (Z.eq_dec a 0) as [->|Hne].
  - destruct b; simpl; lia.
  - rewrite !Zdigits2_log2 by lia. pose proof (Z.log2_le_mono a b). lia.
Qed.

Lemma Zdigits2_mul_pow2 (k n : Z) :
  0 < k → 0 <= n → Zdigits2 (k * 2 ^ n) = Zdigits2 k + n.
Proof.
  intros Hk Hn. rewrite !Zdigits2_log2 by nia.
  rewrite Z.log2_mul_pow2 by lia. lia.
Qed.

Lemma fexp_mono (a b : Z) : a <= b → fexp prec emax a <= fexp prec emax b.
Proof. unfold fexp. lia. Qed.

(** *** Rounding keeps a number below a representable bound *)

(** The bound is [k * 2^eb], a number the format holds exactly. *)
Variables k eb : Z.
Hypothesis k_pos : 0 < k.
Hypothesis bound_exact : fexp prec emax (Zdigits2 k + eb) <= eb.

Lemma shr_fexp_below (m e : Z) (l : location) :
  e <= eb →
  below (k * 2 ^ (eb - e)) (shr_record_of_loc m l) →
  ∃ mrs' e', shr_fexp prec emax m e l = (mrs', e')
             ∧ e' <= eb ∧ below (k * 2 ^ (eb - e')) mrs'.
Proof using k_pos bound_exact.
  intros He Hb. unfold shr_fexp, shr.
  destruct (fexp prec emax (Zdigits2 m + e) - e) as [|p|p] eqn:En;
    [by eexists _, _ | | by eexists _, _].
  eexists _, _. split; [reflexivity|].
  assert (e + Zpos p <= eb) as He'.
  { apply below_of_loc in Hb as [Hm _].
    pose proof (Zdigits2_mono m _ Hm) as Hd.
    rewrite Zdigits2_mul_pow2 in Hd by lia.
    pose proof (fexp_mono (Zdigits2 m + e) (Zdigits2 k + eb)). lia. }
  split; [done|]. apply iter_shr_1_below.
  replace (2 ^ Zpos p * (k * 2 ^ (eb - (e + Zpos p))))
    with (k * 2 ^ (eb - e)); [done|].
  replace (eb - e) with (Zpos p + (eb - (e + Zpos p))) by lia.
  rewrite Z.pow_add_r by lia. lia.
Qed.

Hypothesis bound_in_range : eb <= emax - prec.

Lemma binary_round_aux_below (sx : bool) (mx ex : Z) (lx : location) :
  ex <= eb →
  below (k * 2 ^ (eb - ex)) (shr_record_of_loc mx lx) →
  binary_round_aux prec emax sx mx ex lx = S754_zero sx
  ∨ ∃ m e, binary_round_aux prec emax sx mx ex lx = S754_finite sx m e
           ∧ e <= eb ∧ Zpos m <= k * 2 ^ (eb - e).
Proof using k_pos bound_exact bound_in_range.
  intros He Hb. unfold binary_round_aux.
  destruct (shr_fexp_below mx ex lx He Hb) as (mrs' & e' & -> & He' & Hb').
  apply round_nearest_even_below in Hb'.
  destruct (shr_fexp_below
              (round_nearest_even (shr_m mrs') (loc_of_shr_record mrs'))
              e' loc_Exact He')
    as (mrs'' & e'' & -> & He'' & [Hm _]).
  { apply below_of_loc. split; [done|]. by intros []. }
  destruct (shr_m mrs'') as [|m|m]; [by left| |lia].
  right. exists m, e''.
  destruct (Z.leb_spec e'' (emax - prec)); [|lia].
  split_and!; [done|done|lia].
Qed.

End RoundingBounds.

Section DivisionBounds.
Variables prec emax : Z.
#[local] Open Scope Z_scope.

Lemma new_location_exact (n r : Z) : new_location n r ≠ loc_Exact → r ≠ 0.
Proof.
  unfold new_location, new_location_even, new_location_odd.
  intros H ->. by destruct (Z.even n).
Qed.

(** The quotient of two positive integers [m <= n], before rounding, is at
    most 1. *)
Lemma SFdiv_core_binary_below (m n : positive) :
  Zpos m <= Zpos n →
  ∃ q e l, SFdiv_core_binary prec emax (Zpos m) 0 (Zpos n) 0 = (q, e, l)
           ∧ e <= 0 ∧ below (1 * 2 ^ (0 - e)) (shr_record_of_loc q l).
Proof.
  intros Hmn. unfold SFdiv_core_binary.
  set (e := Z.min _ (0 - 0)). assert (e <= 0) as He by lia.
  set (m' := match 0 - 0 - e with
             | 0 => Zpos m
             | Zpos _ => Z.shiftl (Zpos m) (0 - 0 - e)
             | Zneg _ => 0
             end).
  assert (m' = Zpos m * 2 ^ (0 - e)) as Hm'.
  { unfold m'. destruct (0 - 0 - e) as [|p|p] eqn:Es; [| |lia].
    - replace (0 - e) with 0 by lia. simpl. lia.
    - rewrite Z.shiftl_mul_pow2 by lia. by replace (0 - e) with (Zpos p) by lia. }
  pose proof (Z_div_mod m' (Zpos n) eq_refl) as Hdiv.
  destruct (Z.div_eucl m' (Zpos n)) as [q r]. destruct Hdiv as [Hq Hr].
  exists q, e, (new_location (Zpos n) r). split; [done|]. split; [done|].
  assert (0 < 2 ^ (0 - e)) by (apply Z.pow_pos_nonneg; lia).
  apply below_of_loc. split; [nia|].
  intros Hr'%new_location_exact. nia.
Qed.

End DivisionBounds.

(** ** ATS score *)

Section AtsScore.
#[local] Open Scope Z_scope.

(** Rounding to binary64 a number that is at most [k], a bound the format
    holds exactly. *)
Lemma at_most_rounded (k mx ex : Z) (lx : location) :
  0 < k → fexp prec emax (Zdigits2 k + 0) <= 0 →
  ex <= 0 → below (k * 2 ^ (0 - ex)) (shr_record_of_loc mx lx) →
  at_most k (binary_round_aux prec emax false mx ex lx).
Proof.
  intros Hk Hexact Hex Hb.
  destruct (binary_round_aux_below prec emax k 0 Hk Hexact
              ltac:(done) false mx ex lx Hex Hb)
    as [->|(m & e & -> & He & Hm)]; simpl; done.
Qed.

(** [m / n] for [0 < m <= n] returns a float that is at most 1. *)
Lemma int_true_div_at_most (m n : Z) :
  0 < m <= n → ∃ x, int_true_div m n = Returns x ∧ at_most 1 x.
Proof.
  intros [Hm Hmn]. destruct m as [|m|m]; try lia. destruct n as [|n|n]; try lia.
  unfold int_true_div, int_as_binary, SFdiv.
  change (Zpos m <? 0) with false. change (Zpos n <? 0) with false.
  change (Z.to_pos (Z.abs (Zpos m))) with m.
  change (Z.to_pos (Z.abs (Zpos n))) with n.
  destruct (SFdiv_core_binary_below prec emax m n Hmn)
    as (q & e & l & -> & He & Hb).
  pose proof (at_most_rounded 1 q e l ltac:(done) ltac:(done) He Hb) as H.
  simpl xorb.
  destruct (binary_round_aux prec emax false q e l) as [[]|[]| |[] ? ?];
    try done; eexists; (split; [reflexivity|done]).
Qed.

(** [x * 100] for such a float is at most 100. *)
Lemma mul_100_at_most (x : float) :
  at_most 1 x →
  ∃ y, mul (Float x) (Int 100) = Returns (Float y) ∧ at_most 100 y.
Proof.
  intros Hx. unfold mul. simpl to_float.
  change (float_of_int 100)
    with (Returns (S754_finite false 7036874417766400 (-46))).
  cbn [mbind mret outcome_bind outcome_ret].
  eexists. split; [reflexivity|].
  destruct x as [[]|[]| |[] m e]; try done. simpl in Hx. destruct Hx as [He Hm].
  unfold SFmul. simpl xorb.
  apply at_most_rounded; [done|done|lia|].
  apply below_of_loc. split; [|done].
  rewrite Pos2Z.inj_mul.
  replace (0 - (e + -46)) with (46 + (0 - e)) by lia.
  rewrite Z.pow_add_r by lia.
  change (Zpos 7036874417766400) with (100 * 2 ^ 46).
  assert (0 < 2 ^ 46) by done. assert (0 < 2 ^ (0 - e)) by (apply Z.pow_pos_nonneg; lia).
  nia.
Qed.

(** Rounding it to an integer stays within 0 and 100. *)
Lemma round_at_most (y : float) :
  at_most 100 y → ∃ r, round (Float y) = Returns r ∧ 0 <= r <= 100.
Proof.
  destruct y as [[]|[]| |[] m e]; try done; simpl.
  - intros _. exists 0. done.
  - intros [He Hm]. eexists. split; [reflexivity|].
    unfold round_half_even. destruct e as [|p|p]; [simpl in *; lia|lia|].
    replace (0 - Zneg p) with (Zpos p) in Hm by lia.
    assert (0 < 2 ^ Zpos p) as Hd by (apply Z.pow_pos_nonneg; lia).
    pose proof (Z.div_mod (Zpos m) (2 ^ Zpos p) ltac:(lia)) as Hdm.
    pose proof (Z.mod_pos_bound (Zpos m) (2 ^ Zpos p) Hd) as Hr.
    set (d := 2 ^ Zpos p) in *. set (q := Zpos m / d) in *.
    set (r := Zpos m mod d) in *.
    assert (0 <= q <= 100) by nia.
    destruct (Z.compare_spec (2 * r) d); try destruct (Z.even q); try lia; nia.
Qed.

Lemma percent_bounds (m n : Z) :
  0 <= m <= n → 0 < n → ∃ r, percent m n = Returns r ∧ 0 <= r <= 100.
Proof.
  intros [Hm Hmn] Hn. unfold percent.
  assert (∃ x, int_true_div m n = Returns x ∧ at_most 1 x)
    as (x & -> & Hx).
  { destruct (Z.eq_dec m 0) as [->|Hne].
    - destruct n; try lia. by exists (S754_zero false).
    - apply int_true_div_at_most. lia. }
  cbn [mbind outcome_bind].
  destruct (mul_100_at_most x Hx) as (y & -> & Hy).
  cbn [mbind outcome_bind]. by apply round_at_most.
Qed.

Lemma sum_ones {A} (l : list A) :
  sum (map (fun _ => 1) l) = Z.of_nat (length l).
Proof.
  unfold sum. assert (∀ acc, fold_left Z.add (map (fun _ : A => 1) l) acc
                             = acc + Z.of_nat (length l)) as H.
  { induction l as [|a l IH]; intros acc; simpl length; simpl fold_left.
    - lia.
    - rewrite IH. lia. }
  by rewrite H.
Qed.

Variable U : ucd.

Lemma ats_matches_count (text : str) (keywords : list str) :
  ats_matches U text keywords
  = Z.of_nat (length (List.filter (fun k => contains k (lower U text)) keywords)).
Proof. unfold ats_matches. apply sum_ones. Qed.

Lemma ats_matches_le (text : str) (keywords : list str) :
  0 <= ats_matches U text keywords <= Z.of_nat (length keywords).
Proof.
  rewrite ats_matches_count.
  pose proof (List.filter_length_le
                (fun k => contains k (lower U text)) keywords). lia.
Qed.

Lemma calculate_ats_score_unclamped_eq (text job_desc : str) :
  calculate_ats_score_unclamped U text job_desc
  = match ats_keywords U job_desc with
    | [] => Returns 0
    | keywords =>
        percent (ats_matches U text keywords) (Z.of_nat (length keywords))
    end.
Proof.
  unfold calculate_ats_score_unclamped, percent.
  destruct (ats_keywords U job_desc) as [|k ks]; [done|].
  by destruct (int_true_div _ _).
Qed.

Lemma calculate_ats_score_eq (text job_desc : str) :
  calculate_ats_score U text job_desc
  = match ats_keywords U job_desc with
    | [] => Returns 0
    | keywords =>
        rounded ← percent (ats_matches U text keywords)
                          (Z.of_nat (length keywords));
        Returns (Z.min 100 rounded)
    end.
Proof.
  unfold calculate_ats_score, percent.
  destruct (ats_keywords U job_desc) as [|k ks]; [done|].
  destruct (int_true_div _ _) as [x|]; [|done].
  cbn [fmap outcome_fmap mbind outcome_bind].
  destruct (mul _ _) as [scaled|]; [|done].
  cbn [mbind outcome_bind]. by destruct (round _).
Qed.

(** C4. The ATS score is [min(100, round(m / n * 100))], the quotient, the
    product and the rounding being Python's, where [n] counts the
    whitespace-separated tokens of the lowercased job description longer
    than 4 characters and [m] those of them found in the lowercased resume
    text; it is 0 when [n] is 0; the function always returns, and its
    result lies between 0 and 100. *)
Theorem calculate_ats_score_value (text job_desc : str) :
  let keywords :=
    List.filter (fun word => (4 <? length word)%nat)
                (split (lower U job_desc)) in
  let n := length keywords in
  let m := length (List.filter (fun k => contains k (lower U text)) keywords) in
  ∃ score,
    calculate_ats_score U text job_desc = Returns score
    ∧ 0 <= score <= 100
    ∧ (n = 0%nat → score = 0)
    ∧ ((0 < n)%nat →
       ∃ rounded, percent (Z.of_nat m) (Z.of_nat n) = Returns rounded
                  ∧ score = Z.min 100 rounded).
Proof.
  cbv zeta. fold (ats_keywords U job_desc).
  rewrite calculate_ats_score_eq, <- ats_matches_count.
  pose proof (ats_matches_le text (ats_keywords U job_desc)) as Hle.
  destruct (ats_keywords U job_desc) as [|k ks] eqn:Ek.
  - exists 0. simpl. split_and!; try done. lia.
  - destruct (percent_bounds _ _ Hle ltac:(simpl; lia)) as (r & Hr & Hb).
    cbv zeta. rewrite Hr. cbn [mbind outcome_bind].
    exists (Z.min 100 r). split_and!; try done; try lia.
    intros _. by exists r.
Qed.

(** C10. The keywords found in the resume are at most as many as the
    keywords, and the score is the one of the variant that does not clamp
    the rounded percentage to 100. *)
Theorem calculate_ats_score_clamp_redundant (text job_desc : str) :
  ats_matches U text (ats_keywords U job_desc)
  <= Z.of_nat (length (ats_keywords U job_desc))
  ∧ calculate_ats_score U text job_desc
    = calculate_ats_score_unclamped U text job_desc.
Proof.
  pose proof (ats_matches_le text (ats_keywords U job_desc)) as Hle.
  split; [lia|].
  rewrite calculate_ats_score_eq, calculate_ats_score_unclamped_eq.
  destruct (ats_keywords U job_desc) as [|k ks] eqn:Ek; [done|].
  destruct (percent_bounds _ _ Hle ltac:(simpl; lia)) as (r & Hr & Hb).
  cbv zeta. rewrite Hr. cbn [mbind outcome_bind]. f_equal. lia.
Qed.

(** *** Section score *)

Lemma sum_ones_le_sections (text : str) :
  (length (List.filter (fun sec => contains sec (lower U text)) sections) <= 6)%nat.
Proof. apply (List.filter_length_le _ sections). Qed.

(** X1. The section score is the rounded percentage of the six section
    names found in the lowercased text: 0, 17, 33, 50, 67, 83 or 100. *)
Theorem calculate_section_score_value (text : str) :
  let found :=
    length (List.filter (fun sec => contains sec (lower U text)) sections) in
  calculate_section_score U text = percent (Z.of_nat found) 6
  ∧ (found <= 6)%nat
  ∧ ∃ score, calculate_section_score U text = Returns score
             ∧ nth_error [0; 17; 33; 50; 67; 83; 100] found = Some score.
Proof.
  cbv zeta. unfold calculate_section_score. rewrite sum_ones.
  pose proof (sum_ones_le_sections text) as Hle.
  split; [done|]. split; [done|].
  change (Z.of_nat (length sections)) with 6.
  destruct (length _) as [|[|[|[|[|[|[|n]]]]]]]; [..|lia];
    eexists; (split; [vm_compute; reflexivity|reflexivity]).
Qed.

End AtsScore.

Example ats_score_two_of_five :
  calculate_ats_score ascii_ucd
    (lit "Experience: built APIs in Python. Education: BS CS.")
    (lit "Looking for Python developer with Education background")
  = Returns 40%Z.
Proof. vm_compute. reflexivity. Qed.

(** 23 keywords of 40: [23 / 40 * 100] is 57.49999999999999 in floating
    point, so the percentage is 57 although 57.5 would round to 58. *)
Example percent_23_of_40 : percent 23 40 = Returns 57%Z.
Proof. vm_compute. reflexivity. Qed.

(** ** More on the text extractor *)

Section RunReplacement.
Variable p : char -> bool.
Hypothesis space_in_class : p SPACE = true.

(** Replacing the runs of a class that holds the space leaves no character
    of the class but single spaces. *)
Lemma sub_runs_from_class (in_run : bool) (s : str) :
  let out := sub_runs_from p in_run s in
  Forall (fun c => p c = true → c = SPACE) out
  ∧ spaced out
  ∧ (in_run = true → head out ≠ Some SPACE).
Proof using space_in_class.
  cbv zeta. revert in_run.
  induction s as [|c s IH]; intros in_run; simpl.
  { split_and!; [constructor|done|done]. }
  destruct (p c) eqn:Hc.
  - destruct (IH true) as (IH1 & IH2 & IH3).
    destruct in_run; simpl; [done|].
    split_and!; [by constructor| |done].
    destruct (sub_runs_from p true s) as [|b rest]; simpl; [done|].
    split; [|done]. intros [_ ->]. by apply IH3.
  - destruct (IH false) as (IH1 & IH2 & _).
    assert (c ≠ SPACE) as Hne by (intros ->; congruence).
    split_and!.
    + constructor; [congruence|done].
    + destruct (sub_runs_from p false s); simpl; [done|]. split; [|done].
      by intros [? _].
    + intros _ [= ?]. done.
Qed.

End RunReplacement.

Section ExtractedText.
Variable fitz : pdf_library.

(** The loop over the pages concatenates their texts in page order. *)
Lemma for_each_page_texts (pgs : list (page fitz)) (texts : list str) (text : str) :
  Forall2 (fun pg t => get_text fitz pg = Returns t) pgs texts →
  for_each (fun text pg => t ← get_text fitz pg; mret (text ++ t)) pgs text
  = Returns (text ++ concat texts).
Proof.
  intros H. revert text.
  induction H as [|pg t pgs texts Hpg _ IH]; intros text; simpl.
  - by rewrite app_nil_r.
  - rewrite Hpg. cbn. rewrite IH. by rewrite app_assoc.
Qed.

(** X3. Whatever the upload, the extractor returns a text in which every
    whitespace character is a space, no two spaces follow each other, and
    neither end is a whitespace character. *)
Theorem extract_text_from_pdf_normalized (f : uploaded fitz) :
  ∃ text,
    (extract_text_from_pdf fitz f).1 = Returns text
    ∧ Forall (fun c => is_space c = true → c = SPACE) text
    ∧ (∀ l1 l2, text ≠ l1 ++ SPACE :: SPACE :: l2)
    ∧ (∀ c, head text = Some c → is_space c = false)
    ∧ (∀ c, last text = Some c → is_space c = false).
Proof.
  unfold extract_text_from_pdf.
  destruct (read_pdf_text fitz f) as [text|e] eqn:E; simpl.
  2: { exists []. split_and!; try done. intros [|? ?] ?; done. }
  exists text. split; [done|].
  unfold read_pdf_text in E.
  destruct (read fitz f) as [bytes|]; [|done]. cbn in E.
  destruct (fitz_open fitz bytes) as [d|]; [|done]. cbn in E.
  destruct (for_each _ _ _) as [raw|]; [|done]. cbn in E.
  destruct (close fitz d); [|done]. cbn in E. injection E as <-.
  destruct (sub_runs_from_class is_space eq_refl false raw) as (Hall & Hsp & _).
  unfold strip, sub_runs.
  set (s := sub_runs_from is_space false raw) in *.
  destruct (lstrip_suffix s) as [t1 E1].
  destruct (rstrip_prefix (lstrip s)) as [t2 E2].
  rewrite E1, E2 in Hall, Hsp.
  split_and!.
  - by apply Forall_app in Hall as [_ [? _]%Forall_app].
  - intros l1 l2. apply spaced_app_r, spaced_app_l in Hsp.
    by apply spaced_no_double.
  - intros c Hc%rstrip_head. by apply lstrip_head in Hc.
  - apply rstrip_last.
Qed.

(** X4. When the upload is read, the stream opens, every page gives its text
    and the document closes, the extractor returns the page texts joined in
    page order, whitespace runs replaced by one space and the ends
    stripped, and shows no message. *)
Theorem extract_text_from_pdf_pages (f : uploaded fitz) (bytes : list Byte.byte)
    (d : doc fitz) (texts : list str) :
  read fitz f = Returns bytes →
  fitz_open fitz bytes = Returns d →
  Forall2 (fun pg t => get_text fitz pg = Returns t) (pages fitz d) texts →
  close fitz d = Returns tt →
  extract_text_from_pdf fitz f
  = (Returns (strip (sub_runs is_space (concat texts))), []).
Proof.
  intros Hr Ho Hp Hc. unfold extract_text_from_pdf, read_pdf_text.
  rewrite Hr. cbn. rewrite Ho. cbn.
  rewrite (for_each_page_texts _ texts) by done. cbn. by rewrite Hc.
Qed.

End ExtractedText.

Lemma extract_text_from_pdf_pages_witness :
  extract_text_from_pdf two_page_fitz tt
  = (Returns (strip (sub_runs is_space
                       (concat [lit " Jane  Doe" ++ [10%N]; lit "Python "]))),
     []).
Proof.
  apply (extract_text_from_pdf_pages two_page_fitz tt [] tt);
    try reflexivity.
  repeat constructor.
Defined.

Example extract_text_from_pdf_two_pages :
  extract_text_from_pdf two_page_fitz tt = (Returns (lit "Jane Doe Python"), []).
Proof. reflexivity. Qed.

(** ** Texts without word characters *)

Section EmptyPreprocess.
Variable U : ucd.
Hypothesis laws : ucd_laws U.

Lemma sub_runs_from_no_word (s : str) :
  Forall (fun c => is_word U c = false) s →
  sub_runs_from (is_nonword U) true s = []
  ∧ sub_runs_from (is_nonword U) false s
    = match s with [] => [] | _ => [SPACE] end.
Proof.
  induction 1 as [|c s Hc _ [IH1 IH2]]; simpl; [done|].
  assert (is_nonword U c = true) as -> by (unfold is_nonword; by rewrite Hc).
  by rewrite IH1.
Qed.

Lemma elem_of_sub_runs_from (in_run : bool) (s : str) (c : char) :
  c ∈ s → is_word U c = true → c ∈ sub_runs_from (is_nonword U) in_run s.
Proof.
  intros Hin Hw. revert in_run.
  induction Hin as [c s|c d s _ IH]; intros in_run; simpl.
  - unfold is_nonword. rewrite Hw. simpl. left.
  - destruct (is_nonword U d).
    + rewrite elem_of_app. right. by apply IH.
    + right. by apply IH.
Qed.

Lemma elem_of_lstrip (s : str) (c : char) :
  c ∈ s → is_space c = false → c ∈ lstrip s.
Proof.
  intros Hin Hc. induction Hin as [c s|c d s Hin IH]; simpl.
  - rewrite Hc. left.
  - destruct (is_space d); [by apply IH|]. by right.
Qed.

Lemma elem_of_rstrip (s : str) (c : char) :
  c ∈ s → is_space c = false → c ∈ rstrip s.
Proof.
  intros Hin Hc. induction Hin as [c s|c d s Hin IH]; simpl.
  - destruct (rstrip s); [rewrite Hc|]; left.
  - specialize (IH Hc). destruct (rstrip s); [by apply elem_of_nil in IH|].
    by right.
Qed.

Lemma preprocess_text_nil (text : str) :
  preprocess_text U text = []
  ↔ Forall (fun c => is_word U c = false) (lower U text).
Proof using laws.
  unfold preprocess_text, sub_runs. split.
  - intros E. apply Forall_forall. intros c Hin.
    destruct (is_word U c) eqn:Hw; [|done]. exfalso.
    pose proof (word_not_space U laws c Hw) as Hsp.
    assert (c ∈ strip (sub_runs_from (is_nonword U) false (lower U text))) as H.
    { unfold strip. apply elem_of_rstrip; [|done].
      apply elem_of_lstrip; [|done]. by apply elem_of_sub_runs_from. }
    rewrite E in H. by apply elem_of_nil in H.
  - intros [_ ->]%sub_runs_from_no_word. by destruct (lower U text).
Qed.

(** X5. A text preprocesses to the empty string exactly when, lowercased,
    it has no word character. *)
Theorem preprocess_text_empty_iff (text : str) :
  preprocess_text U text = []
  ↔ ∀ c, c ∈ lower U text → is_word U c = false.
Proof using laws. rewrite preprocess_text_nil. apply Forall_forall. Qed.

Variable partial_ratio : str -> str -> Z.
Variable model : embedder.

(** X6. The comparison gives no similarity exactly when the lowercased
    resume or the lowercased job description has no word character. *)
Theorem compare_resume_with_job_none_iff (resume_text job_desc : str)
    (skills_list : list str) :
  (compare_resume_with_job U partial_ratio model
     resume_text job_desc skills_list).1.1.1 = None
  ↔ (∀ c, c ∈ lower U resume_text → is_word U c = false)
    ∨ (∀ c, c ∈ lower U job_desc → is_word U c = false).
Proof using laws.
  rewrite <- !Forall_forall, <- !preprocess_text_nil.
  unfold compare_resume_with_job.
  destruct (preprocess_text U resume_text) as [|a r];
    destruct (preprocess_text U job_desc) as [|b j]; simpl;
    try destruct (extract_skills _ _ _ _ _ _); simpl; intuition congruence.
Qed.

(** X2. Cleaning the texts beforehand does not change the similarity:
    called on the preprocessed resume and the preprocessed job description,
    with any skill list, the comparison hands the same two texts to the
    embedding model and returns the same similarity. *)
Theorem compare_resume_with_job_precleaned (resume_text job_desc : str)
    (skills_list skills_list' : list str) :
  let raw :=
    compare_resume_with_job U partial_ratio model
      resume_text job_desc skills_list in
  let cleaned :=
    compare_resume_with_job U partial_ratio model
      (preprocess_text U resume_text) (preprocess_text U job_desc)
      skills_list' in
  cleaned.1.1.1 = raw.1.1.1 ∧ cleaned.2 = raw.2.
Proof using laws.
  cbv zeta. unfold compare_resume_with_job.
  rewrite !(clean_fixed U laws _ (preprocess_text_clean U laws _)).
  destruct (preprocess_text U resume_text) as [|a r]; [done|].
  destruct (preprocess_text U job_desc) as [|b j]; [done|].
  by do 2 destruct (extract_skills _ _ _ _ _ _).
Qed.

End EmptyPreprocess.

Lemma preprocess_text_empty_iff_witness :
  preprocess_text ascii_ucd (lit " -- !? ") = []
  ↔ ∀ c, c ∈ lower ascii_ucd (lit " -- !? ") → is_word ascii_ucd c = false.
Proof. apply (preprocess_text_empty_iff ascii_ucd ascii_ucd_laws). Defined.

Lemma compare_resume_with_job_precleaned_witness :
  let raw :=
    compare_resume_with_job ascii_ucd exact_ratio sure_model
      (lit "  Python -- Dev. ") (lit "Python developer!") [lit "python"] in
  let cleaned :=
    compare_resume_with_job ascii_ucd exact_ratio sure_model
      (preprocess_text ascii_ucd (lit "  Python -- Dev. "))
      (preprocess_text ascii_ucd (lit "Python developer!")) [] in
  cleaned.1.1.1 = raw.1.1.1 ∧ cleaned.2 = raw.2.
Proof.
  apply (compare_resume_with_job_precleaned ascii_ucd ascii_ucd_laws
           exact_ratio sure_model).
Defined.

Lemma compare_resume_with_job_none_iff_witness :
  (compare_resume_with_job ascii_ucd no_ratio null_model
     (lit "...") (lit "Python developer") [lit "python"]).1.1.1 = None
  ↔ (∀ c, c ∈ lower ascii_ucd (lit "...") → is_word ascii_ucd c = false)
    ∨ (∀ c, c ∈ lower ascii_ucd (lit "Python developer") →
            is_word ascii_ucd c = false).
Proof.
  apply (compare_resume_with_job_none_iff ascii_ucd ascii_ucd_laws
           no_ratio null_model).
Defined.

(** ** More on the skill matcher *)

Section SkillLists.
Variable U : ucd.
Variable partial_ratio : str -> str -> Z.
Variables resume_text job_desc : str.

#[local] Abbreviation skills_at t l :=
  (extract_skills U partial_ratio resume_text job_desc l t).

Lemma extract_skills_filters (skills_list : list str) (t : Z) :
  skills_at t skills_list
  = (filter (is_matched U partial_ratio resume_text t) skills_list,
     filter (is_missing U partial_ratio resume_text job_desc t) skills_list).
Proof. unfold extract_skills. by rewrite extract_skills_loop. Qed.

Lemma filter_weaken_sublist {A} (P Q : A → Prop)
    `{∀ x, Decision (P x)} `{∀ x, Decision (Q x)} (l : list A) :
  (∀ x, P x → Q x) → filter P l `sublist_of` filter Q l.
Proof.
  intros HPQ. induction l as [|x l IH]; [done|].
  rewrite !filter_cons.
  destruct (decide (P x)) as [HP|HP].
  - rewrite decide_True by auto. by apply sublist_skip.
  - destruct (decide (Q x)); [by apply sublist_cons|done].
Qed.

(** X7. Raising the threshold can only drop skills: the matched skills at
    the higher threshold are a subsequence of those at the lower one, and a
    skill that is matched or missing at the higher threshold is matched or
    missing at the lower one. *)
Theorem extract_skills_threshold (skills_list : list str) (t t' : Z) :
  (t <= t')%Z →
  (skills_at t' skills_list).1 `sublist_of` (skills_at t skills_list).1
  ∧ (∀ skill,
       skill ∈ (skills_at t' skills_list).1 ++ (skills_at t' skills_list).2 →
       skill ∈ (skills_at t skills_list).1 ++ (skills_at t skills_list).2).
Proof.
  intros Ht. rewrite !extract_skills_filters. simpl. split.
  - apply filter_weaken_sublist. unfold Spec.is_matched. intros; lia.
  - intros skill. rewrite !elem_of_app, !list_elem_of_filter.
    unfold Spec.is_matched, Spec.is_missing.
    destruct (Z_lt_le_dec
                (Spec.resume_similarity U partial_ratio resume_text skill) t);
      intuition lia.
Qed.

(** X8. The matcher works skill by skill: on two lists put end to end it
    returns the matched and the missing skills of the first followed by
    those of the second; and since no skill is put in both sequences, the
    two together are never longer than the skill list. *)
Theorem extract_skills_app (l1 l2 : list str) (t : Z) :
  skills_at t (l1 ++ l2)
  = ((skills_at t l1).1 ++ (skills_at t l2).1,
     (skills_at t l1).2 ++ (skills_at t l2).2)
  ∧ length (skills_at t l1).1 + length (skills_at t l1).2 ≤ length l1.
Proof.
  rewrite !extract_skills_filters. simpl. rewrite !filter_app. split; [done|].
  induction l1 as [|skill l1 IH]; [done|].
  rewrite !filter_cons.
  destruct (decide (Spec.is_matched _ _ _ _ skill)) as [Hm|Hm];
    destruct (decide (Spec.is_missing _ _ _ _ _ skill)) as [Hs|Hs]; simpl;
    try lia.
  unfold Spec.is_matched, Spec.is_missing in *. lia.
Qed.

End SkillLists.

Lemma extract_skills_threshold_witness :
  (extract_skills ascii_ucd no_ratio [] [] [lit "python"] 1).1
    `sublist_of` (extract_skills ascii_ucd no_ratio [] [] [lit "python"] 0).1
  ∧ (∀ skill,
       skill ∈ (extract_skills ascii_ucd no_ratio [] [] [lit "python"] 1).1
               ++ (extract_skills ascii_ucd no_ratio [] [] [lit "python"] 1).2 →
       skill ∈ (extract_skills ascii_ucd no_ratio [] [] [lit "python"] 0).1
               ++ (extract_skills ascii_ucd no_ratio [] [] [lit "python"] 0).2).
Proof.
  apply (extract_skills_threshold ascii_ucd no_ratio [] [] [lit "python"] 0 1).
  lia.
Defined.

(** ** Formatting checks and style score together *)

(** X9. The two bullet heuristics agree in one direction: a text for which
    the bullet-point suggestion is not emitted has a style score of at least
    50, and a text with the lowest style score gets the suggestion. *)
Theorem bullet_suggestion_and_style_score (U : ucd) (text : str) :
  (msg_bullets ∉ check_formatting U text →
   (50 <= calculate_style_score text)%Z)
  ∧ (calculate_style_score text = 25%Z →
     msg_bullets ∈ check_formatting U text).
Proof.
  rewrite check_formatting_parts.
  fold (issue_parts ((count text [BULLET] <? 3)%nat
                     && (count text DASH_SPACE <? 3)%nat)
          (existsb (fun line => isupper U line && (10 <? length line)%nat)
                   (splitlines text))
          (long_lines text)).
  rewrite elem_of_issue_parts. unfold calculate_style_score.
  generalize (count text [BULLET]) (count text DASH_SPACE). intros a b.
  cbv zeta.
  destruct (Nat.ltb_spec a 3); destruct (Nat.ltb_spec b 3);
    repeat match goal with
           | |- context [(?n <=? ?m)%nat] => destruct (Nat.leb_spec n m)
           end;
    cbn [andb]; split; intros; try lia; try done; try (by left);
    match goal with H : ¬ _ |- _ => destruct H; by left end.
Qed.

(** ** Substrings and words *)

Lemma starts_with_spec (sub s : str) :
  starts_with sub s = true ↔ ∃ b, s = sub ++ b.
Proof.
  revert s. induction sub as [|a sub IH]; intros s; simpl.
  - split; [by exists s|done].
  - destruct s as [|c s]; [split; [done|by intros [? ?]]|].
    rewrite andb_true_iff, IH, N.eqb_eq. split.
    + intros [-> [b ->]]. by exists b.
    + intros [b [= -> ->]]. split; [done|by exists b].
Qed.

Lemma contains_spec (sub s : str) :
  contains sub s = true ↔ ∃ a b, s = a ++ sub ++ b.
Proof.
  induction s as [|c s IH]; simpl; rewrite orb_true_iff, starts_with_spec.
  - split.
    + intros [[b ->]|?]; [by exists [], b|done].
    + intros ([|? ?] & b & E); [left; by exists b|done].
  - rewrite IH. split.
    + intros [[b ->]|(a & b & ->)]; [by exists [], b|by exists (c :: a), b].
    + intros ([|c' a] & b & E); [left; by exists b|].
      injection E as -> ->. right. by exists a, b.
Qed.

Lemma contains_trans (a b c : str) :
  contains a b = true → contains b c = true → contains a c = true.
Proof.
  rewrite !contains_spec. intros (x & y & ->) (u & v & ->).
  exists (u ++ x), (y ++ v). by rewrite <- !app_assoc.
Qed.

(** Every word [str.split] returns is a piece of the text. *)
Lemma split_from_contains (cur s w : str) :
  w ∈ split_from cur s → contains w (rev cur ++ s) = true.
Proof.
  revert cur. induction s as [|c s IH]; intros cur; simpl.
  - destruct cur as [|d cur]; simpl; [by intros ?%elem_of_nil|].
    intros ->%list_elem_of_singleton. apply contains_spec. by exists [], [].
  - destruct (is_space c).
    + rewrite elem_of_app. intros [Hw|Hw].
      * destruct cur as [|d cur]; simpl in Hw; [by apply elem_of_nil in Hw|].
        apply list_elem_of_singleton in Hw as ->.
        apply contains_spec. by exists [], (c :: s).
      * apply (IH []) in Hw. simpl in Hw. apply contains_spec in Hw as (a & b & ->).
        apply contains_spec. exists (rev cur ++ c :: a), b.
        by rewrite <- app_assoc.
    + intros Hw%IH. simpl in Hw. by rewrite <- app_assoc in Hw.
Qed.

Lemma split_contains (s w : str) : w ∈ split s → contains w s = true.
Proof. apply (split_from_contains []). Qed.

(** ** The extremes of the ATS score *)

Section AtsExtremes.
#[local] Open Scope Z_scope.

(** A positive integer divided by itself is the float 1.0. *)
Lemma int_true_div_same (n : Z) :
  0 < n → int_true_div n n = Returns (S754_finite false 4503599627370496 (-52)).
Proof.
  destruct n as [|n|n]; try lia. intros _.
  unfold int_true_div, int_as_binary, SFdiv.
  change (Zpos n <? 0) with false.
  change (Z.to_pos (Z.abs (Zpos n))) with n.
  assert (SFdiv_core_binary prec emax (Zpos n) 0 (Zpos n) 0
          = (2 ^ 53, -53, loc_Exact)) as ->.
  { unfold SFdiv_core_binary.
    replace (Zdigits2 (Zpos n) + 0 - (Zdigits2 (Zpos n) + 0)) with 0 by lia.
    change (Z.min (fexp prec emax 0) (0 - 0)) with (-53).
    change (0 - 0 - -53) with 53. cbv zeta iota.
    rewrite Z.shiftl_mul_pow2 by lia.
    pose proof (Z_div_mod (Zpos n * 2 ^ 53) (Zpos n) eq_refl) as H.
    destruct (Z.div_eucl (Zpos n * 2 ^ 53) (Zpos n)) as [q r].
    destruct H as [Hq Hr].
    assert (q = 2 ^ 53 ∧ r = 0) as [-> ->].
    { apply (Z.div_mod_unique (Zpos n)); [lia|lia|]. rewrite <- Hq. lia. }
    unfold new_location, new_location_even, new_location_odd.
    by destruct (Z.even (Zpos n)). }
  reflexivity.
Qed.

Lemma percent_all (n : Z) : 0 < n → percent n n = Returns 100.
Proof. intros Hn. unfold percent. by rewrite int_true_div_same. Qed.

Lemma percent_none (n : Z) : 0 < n → percent 0 n = Returns 0.
Proof. destruct n; try lia. done. Qed.

Variable U : ucd.

Lemma filter_all {A} (f : A → bool) (l : list A) :
  Forall (fun x => f x = true) l → List.filter f l = l.
Proof. induction 1 as [|x l Hx _ IH]; simpl; [done|]. by rewrite Hx, IH. Qed.

Lemma filter_none {A} (f : A → bool) (l : list A) :
  Forall (fun x => f x = false) l → List.filter f l = [].
Proof. induction 1 as [|x l Hx _ IH]; simpl; [done|]. by rewrite Hx. Qed.

(** X10. When the job description has keywords, a resume in which each of
    them occurs scores 100 and a resume in which none occurs scores 0. *)
Theorem calculate_ats_score_extremes (text job_desc : str) :
  ats_keywords U job_desc ≠ [] →
  ((∀ k, k ∈ ats_keywords U job_desc → contains k (lower U text) = true) →
   calculate_ats_score U text job_desc = Returns 100)
  ∧ ((∀ k, k ∈ ats_keywords U job_desc → contains k (lower U text) = false) →
     calculate_ats_score U text job_desc = Returns 0).
Proof.
  intros Hne. rewrite calculate_ats_score_eq.
  destruct (ats_keywords U job_desc) as [|k ks] eqn:Ek; [done|].
  cbv zeta. rewrite ats_matches_count. split; intros H%Forall_forall.
  - rewrite filter_all by done. rewrite percent_all by (simpl; lia). done.
  - rewrite filter_none by done. rewrite percent_none by (simpl; lia). done.
Qed.

(** X11. A resume whose lowercased text contains the lowercased job
    description scores 100, or 0 when the job description has no keyword;
    in particular the job description compared with itself does. *)
Theorem calculate_ats_score_contained (text job_desc : str) :
  contains (lower U job_desc) (lower U text) = true →
  calculate_ats_score U text job_desc
  = Returns (match ats_keywords U job_desc with [] => 0 | _ => 100 end).
Proof.
  intros Hsub. rewrite calculate_ats_score_eq.
  destruct (ats_keywords U job_desc) as [|k ks] eqn:Ek; [done|].
  cbv zeta. rewrite ats_matches_count, filter_all.
  - rewrite percent_all by (simpl; lia). done.
  - rewrite <- Ek. apply Forall_forall. intros w Hw.
    unfold ats_keywords in Hw.
    apply list_elem_of_In, filter_In in Hw as [Hw%list_elem_of_In _].
    eapply contains_trans; [by apply split_contains|done].
Qed.

End AtsExtremes.

Lemma calculate_ats_score_extremes_witness :
  ((∀ k, k ∈ ats_keywords ascii_ucd (lit "Senior Python developer") →
         contains k (lower ascii_ucd (lit "Java")) = true) →
   calculate_ats_score ascii_ucd (lit "Java") (lit "Senior Python developer")
   = Returns 100%Z)
  ∧ ((∀ k, k ∈ ats_keywords ascii_ucd (lit "Senior Python developer") →
           contains k (lower ascii_ucd (lit "Java")) = false) →
     calculate_ats_score ascii_ucd (lit "Java") (lit "Senior Python developer")
     = Returns 0%Z).
Proof.
  apply (calculate_ats_score_extremes ascii_ucd).
  vm_compute. discriminate.
Defined.

Lemma calculate_ats_score_contained_witness :
  calculate_ats_score ascii_ucd
    (lit "Wanted: a senior PYTHON developer, remote") (lit "Senior Python developer")
  = Returns (match ats_keywords ascii_ucd (lit "Senior Python developer") with
             | [] => 0%Z
             | _ => 100%Z
             end).
Proof.
  apply (calculate_ats_score_contained ascii_ucd). vm_compute. reflexivity.
Defined.

(** ** The skills typed in the sidebar *)

Lemma strip_nil (s : str) : strip s = [] ↔ Forall (fun c => is_space c = true) s.
Proof.
  unfold strip. split.
  - intros E. apply Forall_forall. intros c Hin.
    destruct (is_space c) eqn:Hc; [done|]. exfalso.
    assert (c ∈ rstrip (lstrip s)) as H
      by (apply elem_of_rstrip; [by apply elem_of_lstrip|done]).
    rewrite E in H. by apply elem_of_nil in H.
  - induction 1 as [|c s Hc _ IH]; [done|]. simpl. by rewrite Hc.
Qed.

Lemma elem_of_rev (l : str) (c : char) : c ∈ rev l ↔ c ∈ l.
Proof. rewrite !list_elem_of_In. symmetry. apply in_rev. Qed.

(** Splitting at commas: the pieces hold the characters that are not
    commas, and there is one piece more than there are commas. *)
Lemma split_on_comma_chars (cur s : str) (c : char) :
  (∃ piece, piece ∈ split_on_from [COMMA] 0 cur s ∧ c ∈ piece)
  ↔ c ∈ cur ∨ (c ∈ s ∧ c ≠ COMMA).
Proof.
  revert cur. induction s as [|d s IH]; intros cur.
  - simpl. split.
    + intros (piece & ->%list_elem_of_singleton & Hc). left.
      by rewrite elem_of_rev in Hc.
    + intros [Hc|[[]%elem_of_nil _]]. exists (rev cur).
      split; [by apply list_elem_of_singleton|by rewrite elem_of_rev].
  - cbn [split_on_from starts_with length pred]. rewrite andb_true_r.
    destruct (N.eqb_spec COMMA d) as [<-|Hne].
    + split.
      * intros (piece & [->|Hp]%elem_of_cons & Hc).
        { left. by rewrite elem_of_rev in Hc. }
        assert (c ∈ [] ∨ c ∈ s ∧ c ≠ COMMA) as [[]%elem_of_nil|[? ?]]
          by (apply IH; eauto).
        right. split; [by right|done].
      * intros [Hc|[[->|Hc]%elem_of_cons Hne]]; [|done|].
        { exists (rev cur). split; [left|by rewrite elem_of_rev]. }
        destruct (proj2 (IH []) (or_intror (conj Hc Hne))) as (piece & ? & ?).
        exists piece. split; [by right|done].
    + rewrite IH, !elem_of_cons. intuition congruence.
Qed.

Lemma split_on_comma_length (cur s : str) :
  length (split_on_from [COMMA] 0 cur s) = S (count s [COMMA]).
Proof.
  unfold count. revert cur. induction s as [|d s IH]; intros cur; [done|].
  cbn [split_on_from count_from starts_with length pred]. rewrite andb_true_r.
  destruct (COMMA =? d)%N; simpl; by rewrite IH.
Qed.

Section SidebarSkills.
Variable U : ucd.

(** X12. The skill list is read without failure, it has at most one entry
    more than the text has commas, and it is empty exactly when the text
    holds nothing but commas and whitespace. *)
Theorem skills_list_parsed (user_skill_input : str) :
  ∃ skills,
    skills_list U user_skill_input = Returns skills
    ∧ length skills ≤ S (count user_skill_input [COMMA])
    ∧ (skills = [] ↔
       ∀ c, c ∈ user_skill_input → c = COMMA ∨ is_space c = true).
Proof.
  unfold skills_list, split_on. cbn. eexists. split; [reflexivity|].
  set (pieces := split_on_from _ 0 [] user_skill_input).
  set (keep := fun s : str => match strip s with [] => false | _ => true end).
  split.
  - rewrite length_map.
    pose proof (List.filter_length_le keep pieces) as H.
    unfold pieces in H at 2.
    change (lit ",") with [COMMA] in H. rewrite split_on_comma_length in H.
    done.
  - assert (List.filter keep pieces = []
            ↔ ∀ piece, piece ∈ pieces → strip piece = []) as Hnil.
    { generalize pieces. intros l. induction l as [|x l IH]; simpl.
      - split; [by intros _ ? ?%elem_of_nil|done].
      - unfold keep at 1. destruct (strip x) eqn:Ex.
        + rewrite IH. split.
          * intros H piece [->|?]%elem_of_cons; auto.
          * intros H piece ?. apply H. by right.
        + split; [done|]. intros H. specialize (H x ltac:(left)). congruence. }
    split.
    + intros E%fmap_nil_inv. rewrite Hnil in E. intros c Hc.
      destruct (N.eqb_spec c COMMA) as [->|Hne]; [by left|right].
      destruct (proj2 (split_on_comma_chars [] user_skill_input c)
                      (or_intror (conj Hc Hne)))
        as (piece & Hp & Hcp).
      apply E, strip_nil in Hp. by eapply Forall_forall in Hp.
    + intros H. apply (f_equal (map _) (x := List.filter keep pieces) (y := [])).
      apply Hnil. intros piece Hp. apply strip_nil, Forall_forall.
      intros c Hc.
      assert (c ∈ [] ∨ c ∈ user_skill_input ∧ c ≠ COMMA)
        as [[]%elem_of_nil|[Hin Hne]]
        by (apply split_on_comma_chars; eauto).
      by destruct (H c Hin).
Qed.

End SidebarSkills.

Example skills_list_sample :
  skills_list ascii_ucd (lit " Python, ,SQL ,,  Machine Learning ")
  = Returns [lit "python"; lit "sql"; lit "machine learning"].
Proof. reflexivity. Qed.

(** ** The page *)

Section ScoreRanges.
Variable U : ucd.
#[local] Open Scope Z_scope.

Lemma calculate_ats_score_range (text job_desc : str) :
  ∃ score, calculate_ats_score U text job_desc = Returns score
           ∧ 0 <= score <= 100.
Proof.
  rewrite calculate_ats_score_eq.
  pose proof (ats_matches_le U text (ats_keywords U job_desc)) as Hle.
  destruct (ats_keywords U job_desc) as [|k ks]; [by exists 0|].
  destruct (percent_bounds _ _ Hle ltac:(simpl; lia)) as (r & Hr & Hb).
  cbv zeta. rewrite Hr. exists (Z.min 100 r). split; [done|lia].
Qed.

Lemma calculate_section_score_range (text : str) :
  ∃ score, calculate_section_score U text = Returns score
           ∧ 0 <= score <= 100.
Proof.
  unfold calculate_section_score. rewrite sum_ones.
  pose proof (List.filter_length_le
                (fun sec => contains sec (lower U text)) sections) as Hle.
  apply (percent_bounds _ (Z.of_nat (length sections))); [|done].
  lia.
Qed.

Lemma skill_score_range (matched_skills skills : list str) :
  (length matched_skills <= length skills)%nat →
  ∃ score, skill_score matched_skills skills = Returns score
           ∧ 0 <= score <= 100.
Proof.
  intros Hle. unfold skill_score.
  destruct skills as [|s skills]; [by exists 0|].
  apply (percent_bounds _ (Z.of_nat (length (s :: skills)))); simpl in *; lia.
Qed.

Lemma calculate_style_score_range (text : str) :
  25 <= calculate_style_score text <= 100.
Proof.
  unfold calculate_style_score.
  repeat match goal with
         | |- context [(?n <=? ?m)%nat] => destruct (n <=? m)%nat
         end; lia.
Qed.

End ScoreRanges.

Section Page.
Variable U : ucd.
Variable fitz : pdf_library.
Variable partial_ratio : str -> str -> Z.
Variable model : embedder.
Variable tool_check : str -> list grammar_match.

#[local] Abbreviation render := (render_page U fitz partial_ratio model tool_check).

Lemma bars_of_app (ws ws' : list widget) :
  bars_of (ws ++ ws') = bars_of ws ++ bars_of ws'.
Proof. apply flat_map_app. Qed.

Lemma bars_of_markdown (l : list str) :
  bars_of (map (fun issue => st_markdown (lit "- " ++ issue)) l) = [].
Proof. by induction l. Qed.

Lemma bars_of_skip (w : widget) (ws : list widget) :
  (∀ label value c c', w ≠ custom_animated_bar label value c c') →
  bars_of (w :: ws) = bars_of ws.
Proof. intros H. destruct w; try done. by destruct (H label value color_from color_to). Qed.

Ltac no_bars :=
  repeat first [ rewrite bars_of_app | rewrite bars_of_markdown
               | rewrite bars_of_skip by done | progress cbn [app] ];
  try reflexivity.

Ltac count_widgets :=
  repeat first [ rewrite length_app | rewrite length_map
               | progress cbn [length app] ].

Lemma issue_lines_app (ws ws' : list widget) :
  issue_lines (ws ++ ws') = issue_lines ws ++ issue_lines ws'.
Proof. apply flat_map_app. Qed.

Lemma issue_lines_items (l : list str) :
  issue_lines (map (fun issue => st_markdown (lit "- " ++ issue)) l) = l.
Proof.
  unfold issue_lines. induction l as [|issue l IH]; [done|].
  cbn [map flat_map]. by rewrite IH.
Qed.

Lemma issue_lines_skip (w : widget) (ws : list widget) :
  issue_of w = None → issue_lines (w :: ws) = issue_lines ws.
Proof. intros H. unfold issue_lines. simpl. by rewrite H. Qed.

Ltac only_issues :=
  repeat first [ rewrite issue_lines_app | rewrite issue_lines_items
               | rewrite issue_lines_skip by (vm_compute; reflexivity)
               | progress cbn [app] ];
  change (issue_lines []) with (@nil str);
  rewrite ?app_nil_r; try reflexivity.

Lemma check_formatting_short (text : str) :
  length (check_formatting U text) ≤ 3.
Proof.
  pose proof (check_formatting_parts U text) as ->.
  destruct (_ && _), (existsb _ _), (long_lines text); simpl; lia.
Qed.

(** The full report: at most 20 widgets, none of them a score bar; with
    the feedback enabled its issue lines are the first ten grammar issues
    and then the formatting issues. *)
Lemma full_report_widgets (feedback : bool) (resume_text : str)
    (matched_skills missing_skills : list str) :
  ∃ ws, full_report U tool_check feedback resume_text
                    matched_skills missing_skills = (ws, Returns tt)
        ∧ bars_of ws = [] ∧ length ws ≤ 20
        ∧ issue_lines ws
          = if feedback
            then take 10 (check_grammar tool_check resume_text)
                 ++ check_formatting U resume_text
            else [].
Proof.
  unfold full_report.
  pose proof (length_take (check_grammar tool_check resume_text) 10) as Hg.
  pose proof (check_formatting_short resume_text) as Hf.
  destruct feedback;
    [destruct (check_grammar tool_check resume_text) as [|g gs];
     destruct (check_formatting U resume_text) as [|i iss]|];
    cbn [mbind mret script_bind script_ret show];
    eexists; (split; [reflexivity|]);
    (split_and!;
     [ no_bars
     | count_widgets; rewrite ?Hg; cbn [length] in *; unfold str in *; lia
     | only_issues ]).
Qed.

(** Rounding the content score fails only on an infinite or undefined
    product. *)
Lemma content_score_outcome (score : float) :
  (∃ v, (scaled ← mul (Float score) (Int 100); round scaled) = Returns v)
  ∨ (∃ e, (scaled ← mul (Float score) (Int 100); round scaled) = Raises e
          ∧ (exn_class_of e = OverflowError ∨ exn_class_of e = ValueError)).
Proof.
  unfold mul. cbn [to_float].
  change (float_of_int 100)
    with (Returns (S754_finite false 7036874417766400 (-46))).
  cbn [mbind mret outcome_bind outcome_ret].
  destruct (SFmul prec emax _ _) as [?|?| |? ? ?]; cbn [round]; eauto.
Qed.

(** How the analysis can end: no text extracted, no similarity, an
    exception from rounding the content score, or the scores. *)
Lemma analyze_outcomes (inp : inputs fitz) (file : uploaded fitz)
    (skills : list str) :
  let r := analyze U fitz partial_ratio model tool_check inp file skills in
  (∃ ms, length ms ≤ 1 ∧ bars_of ms = []
         ∧ r = (ms ++ [st_failure (lit "Failed to extract text from PDF.")],
                Returns tt)
         ∧ issue_lines ms = [])
  ∨ r = ([st_failure (lit "Could not compute similarity score.")], Returns tt)
  ∨ (∃ e, r = ([], Raises e)
          ∧ (exn_class_of e = OverflowError ∨ exn_class_of e = ValueError))
  ∨ (∃ overall skill style ats section report,
       r = (animated_gauge ([129518%N] ++ lit " Overall Resume Score")
                           overall (lit "#4CAF50")
            :: map (fun '((label, value), (color_from, color_to)) =>
                      custom_animated_bar label value color_from color_to)
                   (combine [(label_skill, skill); (label_content, overall);
                             (label_style, style);
                             (label_ats, ats); (label_sections, section)]
                            gradients)
            ++ report,
            Returns tt)
       ∧ (0 <= skill <= 100)%Z ∧ (25 <= style <= 100)%Z
       ∧ (0 <= ats <= 100)%Z ∧ (0 <= section <= 100)%Z
       ∧ bars_of report = [] ∧ length report ≤ 20
       ∧ (issue_lines report = []
          ∨ unlock_pressed inp = true ∧ enable_feedback inp = true
            ∧ ∃ text, read_pdf_text fitz file = Returns text
                      ∧ issue_lines report
                        = take 10 (check_grammar tool_check text)
                          ++ check_formatting U text)).
Proof.
  cbv zeta. unfold analyze, extract_text_from_pdf.
  pose proof calculate_style_score_range as Hstyle.
  destruct (read_pdf_text fitz file) as [[|c text]|e];
    cbn [mbind script_bind show run map app fst].
  - left. exists []. split_and!; [simpl; lia|done|done|done].
  - unfold compare_resume_with_job.
    destruct (preprocess_text U (c :: text)) as [|a r];
      [right; by left|].
    destruct (preprocess_text U (job_desc inp)) as [|b j];
      [right; by left|].
    cbv zeta.
    destruct (extract_skills _ _ _ _ _ _) as [matched missing] eqn:E.
    assert (length matched ≤ length skills) as Hlen.
    { rewrite extract_skills_filters in E. injection E as <- _.
      apply length_filter. }
    right; right.
    destruct (calculate_ats_score_range U (c :: text) (job_desc inp))
      as (ats & Ha & Hats).
    destruct (calculate_section_score_range U (c :: text))
      as (section & Hs & Hsection).
    destruct (skill_score_range matched skills Hlen) as (skill & Hk & Hskill).
    destruct (full_report_widgets (enable_feedback inp) (c :: text)
                                  matched missing)
      as (report & Hr & Hbars & Hcount & Hissues).
    rewrite Ha, Hs, Hk. cbn [run script_bind mbind show app].
    destruct (content_score_outcome
                (cos_sim model (encode model (lit "passage: " ++ a :: r))
                         (encode model (lit "query: " ++ b :: j))))
      as [[overall ->]|(e & -> & He)].
    + right. destruct (unlock_pressed inp); [rewrite Hr|];
        cbn [script_bind mbind mret script_ret app].
      * exists overall, skill, (calculate_style_score (c :: text)),
          ats, section, report.
        split_and!; try done; try lia; try apply Hstyle.
        destruct (enable_feedback inp); [right|by left].
        split_and!; [done|done|]. by exists (c :: text).
      * exists overall, skill, (calculate_style_score (c :: text)),
          ats, section, []. rewrite app_nil_r.
        split_and!; try done; try (simpl; lia); try apply Hstyle. by left.
    + left. by exists e.
  - left. exists [st_failure (lit "Error reading PDF: " ++ exn_message e)].
    split_and!; [simpl; lia|done|reflexivity|reflexivity].
Qed.

Lemma skills_list_returns (text : str) :
  ∃ skills, skills_list U text = Returns skills.
Proof. unfold skills_list, split_on. cbn. by eexists. Qed.

(** The page waits for its inputs, or analyses. *)
Lemma render_page_cases (inp : inputs fitz) :
  render inp
  = ([page_title; page_intro;
      st_info (lit "Please upload a resume and paste a job description to begin.")],
     Returns tt)
  ∨ render inp
    = ([page_title; page_intro;
        st_warning (lit "Please enter at least one skill in the sidebar.")],
       Returns tt)
  ∨ ∃ file skills,
      uploaded_file inp = Some file
      ∧ skills_list U (user_skill_input inp) = Returns skills
      ∧ skills ≠ []
      ∧ render inp
        = (page_title :: page_intro
           :: (analyze U fitz partial_ratio model tool_check inp file skills).1,
           (analyze U fitz partial_ratio model tool_check inp file skills).2).
Proof.
  unfold render_page.
  destruct (skills_list_returns (user_skill_input inp)) as [skills Hs].
  rewrite Hs. cbn [mbind script_bind show run app].
  destruct (uploaded_file inp) as [file|]; [|by left].
  destruct (job_desc inp) as [|c jd] eqn:Ej; [by left|].
  destruct skills as [|skill skills]; [right; by left|].
  right; right. exists file, (skill :: skills). split_and!; try done.
  by destruct (analyze _ _ _ _ _ _ _ _).
Qed.

(** The same with the inputs that lead to each case. *)
Lemma render_page_branches (inp : inputs fitz) :
  ((uploaded_file inp = None ∨ job_desc inp = [])
   ∧ render inp
     = ([page_title; page_intro;
         st_info (lit "Please upload a resume and paste a job description to begin.")],
        Returns tt))
  ∨ ((uploaded_file inp ≠ None ∧ job_desc inp ≠ []
      ∧ skills_list U (user_skill_input inp) = Returns [])
     ∧ render inp
       = ([page_title; page_intro;
           st_warning (lit "Please enter at least one skill in the sidebar.")],
          Returns tt))
  ∨ ∃ file skill skills,
      uploaded_file inp = Some file ∧ job_desc inp ≠ []
      ∧ skills_list U (user_skill_input inp) = Returns (skill :: skills)
      ∧ render inp
        = (page_title :: page_intro
           :: (analyze U fitz partial_ratio model tool_check inp file
                       (skill :: skills)).1,
           (analyze U fitz partial_ratio model tool_check inp file
                    (skill :: skills)).2).
Proof.
  unfold render_page.
  destruct (skills_list_returns (user_skill_input inp)) as [skills Hs].
  rewrite Hs. cbn [mbind script_bind show run app].
  destruct (uploaded_file inp) as [file|]; [|left; split; [by left|done]].
  destruct (job_desc inp) as [|c jd] eqn:Ej; [left; split; [by right|done]|].
  destruct skills as [|skill skills]; [right; left; by split_and!|].
  right; right. exists file, skill, skills. split_and!; try done.
  by destruct (analyze _ _ _ _ _ _ _ _).
Qed.

(** An analysis never ends with the page of three entries that the script
    shows while it waits. *)
Lemma analyze_not_waiting (inp : inputs fitz) (file : uploaded fitz)
    (skills : list str) (w : widget) :
  (∀ m, w ≠ st_failure m) →
  (page_title :: page_intro
   :: (analyze U fitz partial_ratio model tool_check inp file skills).1,
   (analyze U fitz partial_ratio model tool_check inp file skills).2)
  ≠ ([page_title; page_intro; w], Returns tt).
Proof.
  intros Hw.
  destruct (analyze_outcomes inp file skills)
    as [(ms & _ & _ & -> & _)|[->|[(e & -> & _)
        |(overall & skill & style & ats & section & report & -> & _)]]];
    cbn [fst snd]; intros [= E]; try done.
  - destruct ms as [|m [|m' ms]]; simplify_eq/=. by destruct (Hw _ eq_refl).
  - by destruct (Hw _ (eq_sym E)).
Qed.

(** X13. The page consists of its title, its introduction and the
    invitation to begin exactly when no file is uploaded or the job
    description is empty; it consists of its title, its introduction and
    the warning to enter a skill exactly when a file and a job description
    are there and the sidebar gives no skill. *)
Theorem render_page_waits (inp : inputs fitz) :
  (render inp
   = ([page_title; page_intro;
       st_info (lit "Please upload a resume and paste a job description to begin.")],
      Returns tt)
   ↔ uploaded_file inp = None ∨ job_desc inp = [])
  ∧ (render inp
     = ([page_title; page_intro;
         st_warning (lit "Please enter at least one skill in the sidebar.")],
        Returns tt)
     ↔ uploaded_file inp ≠ None ∧ job_desc inp ≠ []
       ∧ skills_list U (user_skill_input inp) = Returns []).
Proof.
  destruct (render_page_branches inp)
    as [[Hin ->]|[[(Hf & Hj & Hs) ->]
        |(file & skill & skills & Hf & Hj & Hs & ->)]].
  - split; [done|]. split; [done|]. intros (? & ? & _). by destruct Hin.
  - split; [|done]. split; [done|]. by intros [?|?].
  - split; (split; [intros E; by apply analyze_not_waiting in E|]).
    + intros [E|E]; [by rewrite E in Hf|done].
    + intros (_ & _ & E). by rewrite E in Hs.
Qed.

(** X14. With an upload, a job description and skills: when reading the
    PDF raises, the page shows the error of the extractor and then that
    the text could not be extracted; when the PDF has no text, it shows
    only the latter.  No score is shown in either case. *)
Theorem render_page_extraction_failure (inp : inputs fitz)
    (file : uploaded fitz) (skill : str) (skills : list str) :
  uploaded_file inp = Some file → job_desc inp ≠ [] →
  skills_list U (user_skill_input inp) = Returns (skill :: skills) →
  (∀ e, read_pdf_text fitz file = Raises e →
     render inp
     = ([page_title; page_intro;
         st_failure (lit "Error reading PDF: " ++ exn_message e);
         st_failure (lit "Failed to extract text from PDF.")],
        Returns tt))
  ∧ (read_pdf_text fitz file = Returns [] →
     render inp
     = ([page_title; page_intro;
         st_failure (lit "Failed to extract text from PDF.")],
        Returns tt)).
Proof.
  intros Hf Hj Hs. unfold render_page. rewrite Hs, Hf.
  cbn [mbind script_bind show run app].
  destruct (job_desc inp) as [|c jd] eqn:Ej; [done|].
  unfold analyze, extract_text_from_pdf. split.
  - by intros e ->.
  - by intros ->.
Qed.

(** X15. A page shows either no score bar or the five bars Skill Match,
    Content, Style, ATS Compatibility and Sections in this order; the
    values of the four bars other than Content lie between 0 and 100. *)
Theorem render_page_bars (inp : inputs fitz) :
  bars_of (render inp).1 = []
  ∨ ∃ skill overall style ats section,
      bars_of (render inp).1
      = [(label_skill, skill); (label_content, overall);
         (label_style, style); (label_ats, ats); (label_sections, section)]
      ∧ (0 <= skill <= 100)%Z ∧ (25 <= style <= 100)%Z
      ∧ (0 <= ats <= 100)%Z ∧ (0 <= section <= 100)%Z.
Proof.
  destruct (render_page_cases inp)
    as [->|[->|(file & skills & _ & _ & _ & ->)]]; [by left..|].
  destruct (analyze_outcomes inp file skills)
    as [(ms & _ & Hms & -> & _)|[->|[(e & -> & _)
        |(overall & skill & style & ats & section & report & -> & ? & ? & ? & ?
          & Hrep & _)]]];
    cbn [fst]; [left; no_bars; by rewrite Hms|by left|by left|].
  right. exists skill, overall, style, ats, section. split; [|done].
  rewrite !bars_of_skip by done. rewrite bars_of_app, Hrep. reflexivity.
Qed.

(** X16. A run of the page raises only when the content score cannot be
    rounded (the product of the similarity and 100 is infinite or not a
    number); the page then shows its title and introduction and nothing
    else. *)
Theorem render_page_raises (inp : inputs fitz) (e : exn) :
  (render inp).2 = Raises e →
  (exn_class_of e = OverflowError ∨ exn_class_of e = ValueError)
  ∧ (render inp).1 = [page_title; page_intro].
Proof.
  destruct (render_page_cases inp)
    as [->|[->|(file & skills & _ & _ & _ & ->)]]; [done..|].
  destruct (analyze_outcomes inp file skills)
    as [(ms & _ & _ & -> & _)|[->|[(e' & -> & He)
        |(overall & skill & style & ats & section & report & -> & _)]]];
    cbn [fst snd]; try done.
  by intros [= ->].
Qed.

(** X17. However many issues the grammar checker reports, the page lists
    at most 13 issues: none at all, or, the unlock button pressed and the
    feedback enabled, the first ten grammar issues of the extracted text
    followed by its formatting issues. *)
Theorem render_page_issue_lines (inp : inputs fitz) :
  let lines := issue_lines (render inp).1 in
  length lines ≤ 13
  ∧ (lines = []
     ∨ unlock_pressed inp = true ∧ enable_feedback inp = true
       ∧ ∃ file text,
           uploaded_file inp = Some file
           ∧ read_pdf_text fitz file = Returns text
           ∧ lines = take 10 (check_grammar tool_check text)
                     ++ check_formatting U text).
Proof.
  cbv zeta.
  assert (issue_lines (render inp).1 = []
          ∨ unlock_pressed inp = true ∧ enable_feedback inp = true
            ∧ ∃ file text,
                uploaded_file inp = Some file
                ∧ read_pdf_text fitz file = Returns text
                ∧ issue_lines (render inp).1
                  = take 10 (check_grammar tool_check text)
                    ++ check_formatting U text) as H.
  { destruct (render_page_cases inp)
      as [->|[->|(file & skills & Hf & _ & _ & ->)]]; [by left..|].
    destruct (analyze_outcomes inp file skills)
      as [(ms & _ & _ & -> & Hms)|[->|[(e' & -> & _)
          |(overall & skill & style & ats & section & report & -> & _ & _ & _
            & _ & _ & _ & Hrep)]]];
      cbn [fst]; [left; only_issues; by rewrite Hms|by left|by left|].
    unfold gradients. cbn [combine map]. only_issues.
    destruct Hrep as [->|(? & ? & text & ? & ->)]; [by left|right].
    split_and!; [done|done|]. by exists file, text. }
  split; [|done].
  destruct H as [->|(_ & _ & file & text & _ & _ & ->)]; [simpl; lia|].
  pose proof (length_take (check_grammar tool_check text) 10).
  pose proof (check_formatting_short text).
  rewrite length_app. unfold str in *. lia.
Qed.

End Page.

Lemma render_page_extraction_failure_witness :
  (∀ e, read_pdf_text toy_fitz broken_upload = Raises e →
     render_page ascii_ucd toy_fitz no_ratio null_model silent_tool broken_visit
     = ([page_title; page_intro;
         st_failure (lit "Error reading PDF: " ++ exn_message e);
         st_failure (lit "Failed to extract text from PDF.")],
        Returns tt))
  ∧ (read_pdf_text toy_fitz broken_upload = Returns [] →
     render_page ascii_ucd toy_fitz no_ratio null_model silent_tool broken_visit
     = ([page_title; page_intro;
         st_failure (lit "Failed to extract text from PDF.")],
        Returns tt)).
Proof.
  apply (render_page_extraction_failure ascii_ucd toy_fitz no_ratio null_model
           silent_tool broken_visit broken_upload (lit "python") []);
    [reflexivity|vm_compute; discriminate|reflexivity].
Defined.

Lemma render_page_raises_witness :
  (exn_class_of (exception ValueError (lit "cannot convert float NaN to integer"))
   = OverflowError
   ∨ exn_class_of (exception ValueError (lit "cannot convert float NaN to integer"))
     = ValueError)
  ∧ (render_page ascii_ucd two_page_fitz no_ratio nan_model silent_tool
       nan_visit).1
    = [page_title; page_intro].
Proof.
  apply (render_page_raises ascii_ucd two_page_fitz no_ratio nan_model
           silent_tool nan_visit).
  vm_compute. reflexivity.
Defined.

(** ** Longer texts *)

Lemma starts_with_length (sub s : str) :
  starts_with sub s = true → length sub ≤ length s.
Proof. intros [b ->]%starts_with_spec. rewrite length_app. lia. Qed.

Lemma starts_with_app (sub s more : str) :
  starts_with sub s = true → starts_with sub (s ++ more) = true.
Proof.
  intros [b ->]%starts_with_spec. apply starts_with_spec.
  exists (b ++ more). by rewrite app_assoc.
Qed.

Lemma count_from_short (sub s : str) (skip : nat) :
  length s < length sub → count_from sub skip s = 0.
Proof.
  revert skip. induction s as [|c s IH]; intros skip Hlen; [done|].
  simpl in *. destruct skip as [|k]; [|apply IH; lia].
  destruct (starts_with sub (c :: s)) eqn:E.
  - apply starts_with_length in E. simpl in E. lia.
  - apply IH. lia.
Qed.

(** Text added at the end never removes an occurrence. *)
Lemma count_from_app (sub s more : str) (skip : nat) :
  count_from sub skip s ≤ count_from sub skip (s ++ more).
Proof.
  revert skip. induction s as [|c s IH]; intros skip; simpl; [lia|].
  destruct skip as [|k]; [|apply IH].
  destruct (starts_with sub (c :: s)) eqn:E.
  - change (c :: s ++ more) with ((c :: s) ++ more).
    rewrite (starts_with_app _ _ more E). specialize (IH (pred (length sub))). lia.
  - destruct (starts_with sub (c :: s ++ more)) eqn:E'; [|apply IH].
    rewrite count_from_short; [lia|].
    destruct (decide (length sub ≤ length (c :: s))) as [Hle|]; [|simpl in *; lia].
    exfalso. apply starts_with_spec in E' as [b Eb].
    assert (starts_with sub (c :: s) = true); [|congruence].
    apply starts_with_spec. exists (drop (length sub) (c :: s)).
    rewrite <- (take_drop (length sub) (c :: s)) at 1. f_equal.
    apply (f_equal (take (length sub))) in Eb.
    rewrite take_app_length in Eb.
    change (c :: s ++ more) with ((c :: s) ++ more) in Eb.
    by rewrite take_app_le in Eb.
Qed.

Lemma count_app (text more sub : str) : count text sub ≤ count (text ++ more) sub.
Proof.
  unfold count. destruct sub; [rewrite length_app; lia|]. apply count_from_app.
Qed.

Lemma bullets_suggested (U : ucd) (text : str) :
  msg_bullets ∈ check_formatting U text
  ↔ count text [BULLET] < 3 ∧ count text DASH_SPACE < 3.
Proof.
  rewrite check_formatting_parts.
  fold (issue_parts ((count text [BULLET] <? 3)%nat
                     && (count text DASH_SPACE <? 3)%nat)
          (existsb (fun line => isupper U line && (10 <? length line)%nat)
                   (splitlines text))
          (long_lines text)).
  rewrite elem_of_issue_parts, andb_true_iff, !Nat.ltb_lt. split.
  - intros [[H _]|[[_ E]|[_ E]]]; [done| |].
    + by destruct (msg_bullets_not_all_caps E).
    + by destruct (msg_long_lines_not_bullets _ (eq_sym E)).
  - intros H. by left.
Qed.

(** X22. Text added at the end of a resume never lowers its style score,
    and never brings the bullet-point suggestion back once the resume has
    enough markers. *)
Theorem style_score_append (U : ucd) (text more : str) :
  (calculate_style_score text <= calculate_style_score (text ++ more))%Z
  ∧ (msg_bullets ∉ check_formatting U text →
     msg_bullets ∉ check_formatting U (text ++ more)).
Proof.
  pose proof (count_app text more [BULLET]) as Hb.
  pose proof (count_app text more DASH_SPACE) as Hd.
  split.
  - unfold calculate_style_score.
    repeat match goal with
           | |- context [(?n <=? ?m)%nat] => destruct (Nat.leb_spec n m)
           end; lia.
  - rewrite !bullets_suggested. lia.
Qed.

Example render_page_ten_of_twelve :
  issue_lines (render_page ascii_ucd two_page_fitz exact_ratio sure_model
                 chatty_tool unlocked_visit).1
  = replicate 10 (lit "Possible typo (Rule: TYPO)") ++ [msg_bullets].
Proof. vm_compute. reflexivity. Qed.

Example render_page_scores :
  bars_of (render_page ascii_ucd two_page_fitz exact_ratio sure_model
             silent_tool good_visit).1
  = [(label_skill, 50%Z); (label_content, 100%Z); (label_style, 25%Z);
     (label_ats, 33%Z); (label_sections, 0%Z)].
Proof. vm_compute. reflexivity. Qed.

(** ** The keyword extraction preprocessor *)

Lemma filter_word_sub_runs (U : ucd) (in_run : bool) (s : str) :
  (∀ c, is_word U c = true → is_space c = false) →
  List.filter (is_word U) (sub_runs_from is_space in_run s)
  = List.filter (is_word U) s.
Proof.
  intros Hw. revert in_run. induction s as [|c s IH]; intros in_run; [done|].
  cbn [sub_runs_from List.filter]. destruct (is_space c) eqn:Hs.
  - assert (is_word U c = false) as ->.
    { destruct (is_word U c) eqn:E; [|done]. apply Hw in E. congruence. }
    assert (is_word U SPACE = false) as Hsp.
    { destruct (is_word U SPACE) eqn:E; [|done]. by apply Hw in E. }
    destruct in_run; cbn [app List.filter]; rewrite ?Hsp; apply IH.
  - cbn [List.filter]. by rewrite IH.
Qed.

Lemma filter_filter_weaker {A} (p q : A → bool) (l : list A) :
  (∀ x, p x = true → q x = true) →
  List.filter p (List.filter q l) = List.filter p l.
Proof.
  intros Hpq. induction l as [|x l IH]; [done|]. cbn [List.filter].
  destruct (q x) eqn:Hq; cbn [List.filter]; rewrite IH; [done|].
  destruct (p x) eqn:Hp; [|done]. apply Hpq in Hp. congruence.
Qed.

(** X20. The keyword extraction preprocessor lowercases one particular
    text: the input with each whitespace run replaced by one space, of which
    exactly the word characters and the spaces are kept, in their order.
    That text holds nothing but word characters and plain spaces, and, no
    word character being whitespace, it has the word characters of the
    input, all of them and in their order. *)
Theorem keyword_preprocess_text_shape (U : ucd) (text : str) :
  let kept :=
    List.filter (fun c => is_word U c || (c =? SPACE)%N)
                (sub_runs is_space text) in
  KeywordExtract.preprocess_text U text = lower U kept
  ∧ Forall (fun c => is_word U c = true ∨ c = SPACE) kept
  ∧ ((∀ c, is_word U c = true → is_space c = false) →
     List.filter (is_word U) kept = List.filter (is_word U) text).
Proof.
  cbv zeta. unfold KeywordExtract.preprocess_text, KeywordExtract.drop_special.
  destruct (sub_runs_from_class is_space eq_refl false text) as (Hall & _).
  split_and!.
  - unfold sub_runs. set (s := sub_runs_from is_space false text) in *.
    clearbody s. f_equal.
    induction Hall as [|c s Hc _ IH]; simpl; [done|]. rewrite IH.
    destruct (is_space c) eqn:Hs.
    + by rewrite (Hc eq_refl).
    + by destruct (N.eqb_spec c SPACE) as [->|_].
  - apply Forall_forall. intros c [_ Hc]%list_elem_of_In%filter_In.
    apply orb_true_iff in Hc as [?|?%N.eqb_eq]; auto.
  - intros Hw. rewrite filter_filter_weaker; [|by intros x ->].
    by apply filter_word_sub_runs.
Qed.

Example keyword_preprocess_text_sample :
  KeywordExtract.preprocess_text ascii_ucd
    (lit "C++,  Python" ++ [9%N; 10%N] ++ lit "& SQL!")
  = lit "c python  sql".
Proof. reflexivity. Qed.

(** X21. Unlike the preprocessor of the matcher, this one is not
    idempotent: punctuation standing between two spaces is dropped and
    leaves both, which a second pass merges. *)
Theorem keyword_preprocess_text_not_idempotent :
  ¬ (∀ text,
       KeywordExtract.preprocess_text ascii_ucd
         (KeywordExtract.preprocess_text ascii_ucd text)
       = KeywordExtract.preprocess_text ascii_ucd text).
Proof. intros H. specialize (H (lit "a , b")). vm_compute in H. discriminate H. Qed.

(** ** The notebook parser *)

Import Parser.

Section NotebookParser.
Variable U : ucd.
Variable plumber : pdfplumber.

Lemma parser_loop (pgs : list (plumber_page plumber)) (texts : list (option str))
    (text : str) :
  Forall2 (fun pg t => extract_text plumber pg = Returns t) pgs texts →
  for_each (fun text pg =>
              page_text ← extract_text plumber pg;
              mret (match page_text with
                    | Some (c :: t) => text ++ c :: t
                    | _ => text
                    end))
           pgs text
  = Returns (text ++ concat (map (default []) texts)).
Proof.
  intros H. revert text.
  induction H as [|pg t pgs texts Hpg _ IH]; intros text; simpl.
  - by rewrite app_nil_r.
  - rewrite Hpg. cbn. rewrite IH. destruct t as [[|c t]|]; simpl.
    + done.
    + by rewrite <- app_assoc.
    + done.
Qed.

(** X18. When the document opens and every page answers, the parser
    returns the texts of the pages joined in page order, a page without
    text ([None]) counting as empty; nothing is normalised. *)
Theorem parser_extract_text_from_pdf_pages (file_path : str)
    (pgs : list (plumber_page plumber)) (texts : list (option str)) :
  plumber_open plumber file_path = Returns pgs →
  Forall2 (fun pg t => extract_text plumber pg = Returns t) pgs texts →
  Parser.extract_text_from_pdf plumber file_path
  = Returns (concat (map (default []) texts)).
Proof.
  intros Ho Hp. unfold Parser.extract_text_from_pdf. rewrite Ho. cbn.
  by rewrite (parser_loop pgs texts).
Qed.

(** X19. For a file whose name ends in ".pdf" once lowercased and whose
    text is extracted, the notebook prints the success line and the first
    500 characters of the text when the text has a character that is not
    whitespace, and the no-text warning otherwise. *)
Theorem notebook_report (file_name text : str) :
  endswith (lower U file_name) (lit ".pdf") = true →
  Parser.extract_text_from_pdf plumber (lit "/content/" ++ file_name)
  = Returns text →
  ((∃ c, c ∈ text ∧ is_space c = false) →
   ∃ excerpt, notebook U plumber file_name = Returns [extracted; excerpt]
              ∧ excerpt = take 500 text ∧ length excerpt ≤ 500)
  ∧ ((∀ c, c ∈ text → is_space c = true) →
     notebook U plumber file_name = Returns [no_text_found]).
Proof.
  intros Hname Htext. unfold notebook. rewrite Hname, Htext. cbn.
  split.
  - intros (c & Hin & Hc).
    destruct (strip text) eqn:E.
    + apply strip_nil in E. eapply Forall_forall in E; [|done]. congruence.
    + eexists. split_and!; [done|done|]. rewrite length_take. lia.
  - intros H%Forall_forall%strip_nil. by rewrite H.
Qed.

End NotebookParser.

Lemma parser_extract_text_from_pdf_pages_witness :
  Parser.extract_text_from_pdf scanned_plumber (lit "/content/cv.pdf")
  = Returns (concat (map (default [])
                         [Some (lit "Jane Doe"); None; Some (lit " ")])).
Proof.
  apply (parser_extract_text_from_pdf_pages scanned_plumber (lit "/content/cv.pdf")
           [Some (lit "Jane Doe"); None; Some (lit " ")]);
    [reflexivity|repeat constructor].
Defined.

Lemma notebook_report_witness :
  ((∃ c, c ∈ lit "Jane Doe " ∧ is_space c = false) →
   ∃ excerpt, notebook ascii_ucd scanned_plumber (lit "CV.PDF")
              = Returns [extracted; excerpt]
              ∧ excerpt = take 500 (lit "Jane Doe ") ∧ length excerpt ≤ 500)
  ∧ ((∀ c, c ∈ lit "Jane Doe " → is_space c = true) →
     notebook ascii_ucd scanned_plumber (lit "CV.PDF") = Returns [no_text_found]).
Proof.
  apply (notebook_report ascii_ucd scanned_plumber (lit "CV.PDF") (lit "Jane Doe "));
    reflexivity.
Defined.

Example notebook_not_a_pdf :
  notebook ascii_ucd scanned_plumber (lit "cv.docx")
  = Returns [not_a_pdf; fallback_text].
Proof. reflexivity. Qed.
